(** * LifeLine: hospital dashboard, donation schedule and organizer portal

A shallow embedding of the business logic of the LifeLine React
front end:

- [HospitalDashboard] (stock cards, stock updates, appointment
  handlers, the date-grouped donation schedule),
- [LocationPickerMap] (reverse geocoding with its fallback label),
- [OrganizerPortal] (upcoming camps, the camp form).

React state is modelled by records, an event handler by a function
from the state before the event to the state after it, a rejected
promise by [None].  The Firestore helpers imported from
[../lib/firestore] are modelled in [Module Firestore]. *)

From Stdlib Require Import ZArith List Bool Lia Permutation Sorted.
From stdpp Require Import gmap strings list fin_maps pretty.

Local Open Scope Z_scope.

(** ** JavaScript built-ins used by the components *)

Module JS.

(** Strings are sequences of 8-bit code units: the model covers names
    and dates written in ASCII, where [toLowerCase] only moves the
    letters A..Z.  Beyond ASCII a byte is not a code unit and
    [toLowerCase] is not the one of JavaScript: [Unicode] has the
    lower-casing on code units, and what depends on the case of
    letters is stated for ASCII strings. *)
Definition toLowerChar (c : Ascii.ascii) : Ascii.ascii :=
  let n := Ascii.N_of_ascii c in
  if ((65 <=? n) && (n <=? 90))%N then Ascii.ascii_of_N (n + 32) else c.

Fixpoint toLowerCase (s : string) : string :=
  match s with
  | EmptyString => EmptyString
  | String c s' => String (toLowerChar c) (toLowerCase s')
  end.

(** [s.startsWith(t)] *)
Fixpoint startsWith (s t : string) : bool :=
  match t, s with
  | EmptyString, _ => true
  | String _ _, EmptyString => false
  | String b t', String a s' => Ascii.eqb a b && startsWith s' t'
  end.

(** [s.includes(t)]: [t] occurs in [s] at some position. *)
Fixpoint includes (s t : string) : bool :=
  startsWith s t ||
  match s with
  | EmptyString => false
  | String _ s' => includes s' t
  end.

(** Truthiness of a string: every string but the empty one. *)
Definition truthy (s : string) : bool := negb (String.eqb s EmptyString).

(** Truthiness of a number, and [x || 0] on a possibly missing
    number ([undefined || 0] is [0]). *)
Definition orZero (x : option Z) : Z :=
  match x with
  | Some n => if n =? 0 then 0 else n
  | None => 0
  end.

(** [Array.prototype.sort]: a stable sort.  [le a b] says that the
    comparator does not put [a] after [b] (its result is not
    positive); insertion from the right keeps equal elements in
    their original order. *)
Fixpoint sort_insert {A} (le : A -> A -> bool) (x : A) (l : list A) : list A :=
  match l with
  | [] => [x]
  | y :: l' => if le x y then x :: y :: l' else y :: sort_insert le x l'
  end.

Definition sort {A} (le : A -> A -> bool) (l : list A) : list A :=
  foldr (sort_insert le) [] l.

(** The default comparator of [sort()]: code-unit order of strings. *)
Definition defaultCompare (a b : string) : bool := String.leb a b.

(** A numeric comparator [(a, b) => f a - f b] where [f] may be
    [NaN] ([None]); a [NaN] result is treated as [+0]. *)
Definition byDifference {A} (f : A -> option Z) (a b : A) : bool :=
  match f a, f b with
  | Some x, Some y => x - y <=? 0
  | _, _ => true
  end.

End JS.

(** ** The Firestore helpers of [../lib/firestore] *)

Module Firestore.

(** The three values of [appt.status]: ['scheduled'], ['completed']
    and ['no-show']. *)
Inductive Status := scheduled | completed | no_show.

Definition Status_eqb (a b : Status) : bool :=
  match a, b with
  | scheduled, scheduled | completed, completed | no_show, no_show => true
  | _, _ => false
  end.

Record Appointment := mkAppointment {
  id : string;
  donorId : string;
  donorName : string;
  date : string;
  timeSlot : string;
  status : Status;
  venueId : string
}.

Record InventoryRecord := mkInventory {
  hospitalName : string;
  address : string;
  bloodStock : gmap string Z;
  lastUpdated : Z
}.

(** The donation outcome written when an appointment is completed. *)
Record Donation := mkDonation {
  donationAppt : string;
  donationDonor : string;
  donationType : string;
  donationVenue : string;
  donationVenueName : string;
  donationVenueKind : string
}.

(** The store: one inventory document per venue, the appointment
    documents in store order, the recorded donations, the time of
    the server and whether the store can be reached. *)
Record Db := mkDb {
  inventories : gmap string InventoryRecord;
  appointments : list Appointment;
  donations : list Donation;
  clock : Z;
  online : bool
}.

Definition setStatus (s : Status) (a : Appointment) : Appointment :=
  mkAppointment (id a) (donorId a) (donorName a) (date a) (timeSlot a) s (venueId a).

Definition stockOf (inv : InventoryRecord) (bloodType : string) : Z :=
  default 0 (bloodStock inv !! bloodType).

(** The atomic increment of one count. *)
Definition increment (bloodType : string) (change now : Z)
    (inv : InventoryRecord) : InventoryRecord :=
  mkInventory (hospitalName inv) (address inv)
    (<[bloodType := stockOf inv bloodType + change]> (bloodStock inv)) now.

Definition hasAppointment (apptId : string) (db : Db) : bool :=
  existsb (fun a => String.eqb (id a) apptId) (appointments db).

Definition transition (apptId : string) (s : Status) (l : list Appointment)
    : list Appointment :=
  map (fun a => if String.eqb (id a) apptId then setStatus s a else a) l.

(** Modelled from the spec: [subscribeToHospitalInventory] of
    lib/firestore, which is not part of the sources; the Inventory
    Store's [subscribe(venueId, callback)] pushes the venue's
    [InventoryRecord] on every change, and this is the record it
    pushes. *)
Definition snapshot (uid : string) (db : Db) : option InventoryRecord :=
  inventories db !! uid.

(** Modelled from the spec: [updateHospitalStock] of lib/firestore,
    which is not part of the sources; the Inventory Store's
    [updateStock(venueId, bloodType, delta)] is an atomic
    increment/decrement of one count that stamps [lastUpdated], and
    a failed persistence call surfaces as an error with no partial
    state. *)
Definition updateHospitalStock (uid bloodType : string) (change : Z)
    (db : Db) : option Db :=
  if online db then
    match inventories db !! uid with
    | Some inv =>
        Some (mkDb (<[uid := increment bloodType change (clock db) inv]> (inventories db))
                (appointments db) (donations db) (clock db) (online db))
    | None => None
    end
  else None.

(** Modelled from the spec: [getVenueAppointments] of lib/firestore,
    which is not part of the sources; the Appointment Store's
    [listByVenue(venueId)] returns the venue's appointments in store
    order. *)
Definition getVenueAppointments (uid : string) (db : Db)
    : option (list Appointment) :=
  if online db
  then Some (List.filter (fun a => String.eqb (venueId a) uid) (appointments db))
  else None.

(** Modelled from the spec: [completeAppointment] of lib/firestore,
    which is not part of the sources; the Appointment Store's
    [complete(apptId, venueId, confirmedType, donorId, venueName,
    venueKind)] marks the appointment completed, records the
    confirmed blood type as the donation outcome and increments the
    venue's inventory for that type by 1. *)
Definition completeAppointment
    (apptId uid confirmedType donor venueName venueKind : string)
    (db : Db) : option Db :=
  if online db && hasAppointment apptId db then
    Some (mkDb (alter (increment confirmedType 1 (clock db)) uid (inventories db))
            (transition apptId completed (appointments db))
            (donations db ++
               [mkDonation apptId donor confirmedType uid venueName venueKind])
            (clock db) (online db))
  else None.

(** Modelled from the spec: [markAppointmentNoShow] of lib/firestore,
    which is not part of the sources; the Appointment Store's
    [markNoShow(apptId)] marks the appointment no-show and has no
    inventory effect. *)
Definition markAppointmentNoShow (apptId : string) (db : Db) : option Db :=
  if online db && hasAppointment apptId db then
    Some (mkDb (inventories db) (transition apptId no_show (appointments db))
            (donations db) (clock db) (online db))
  else None.

End Firestore.

(** ** HospitalDashboard *)

Module HospitalDashboard.
Import Firestore.

Definition bloodTypes : list string :=
  ["A+"; "A-"; "B+"; "B-"; "AB+"; "AB-"; "O+"; "O-"].

Inductive Toast :=
| toast_success (msg : string)
| toast_error (msg : string).

Inductive Tab := stock | schedule.

(** The state of the component: the uid of [currentUser], the
    [useState] cells and the toasts shown so far. *)
Record State := mkState {
  currentUser : option string;
  inventory : option InventoryRecord;
  appointments : list Appointment;
  loading : bool;
  activeTab : Tab;
  toasts : list Toast
}.

Record World := mkWorld { db : Db; ui : State }.

Definition initialState (user : option string) : State :=
  mkState user None [] true stock [].

Definition setDb (d : Db) (w : World) : World := mkWorld d (ui w).

Definition toast (t : Toast) (w : World) : World :=
  let s := ui w in
  mkWorld (db w)
    (mkState (currentUser s) (inventory s) (appointments s) (loading s)
       (activeTab s) (toasts s ++ [t])).

Definition setAppointments (data : list Appointment) (w : World) : World :=
  let s := ui w in
  mkWorld (db w)
    (mkState (currentUser s) (inventory s) data (loading s) (activeTab s) (toasts s)).

(** The subscription callback: [setInventory(data); setLoading(false)]. *)
Definition onSnapshot (data : option InventoryRecord) (w : World) : World :=
  let s := ui w in
  mkWorld (db w)
    (mkState (currentUser s) data (appointments s) false (activeTab s) (toasts s)).

(** The store pushes the venue's record to the subscriber.  The
    handlers below that change the inventory apply [push] themselves:
    the snapshot of a change is taken to arrive before the next event.
    [StockEvents] has the press and the snapshot apart. *)
Definition push (w : World) : World :=
  match currentUser (ui w) with
  | Some uid => onSnapshot (snapshot uid (db w)) w
  | None => w
  end.

Definition loadAppointments (w : World) : World :=
  match currentUser (ui w) with
  | Some uid =>
      match getVenueAppointments uid (db w) with
      | Some data => setAppointments data w
      | None => w
      end
  | None => w
  end.

Definition stockMessage (bloodType : string) (change : Z) : string :=
  "Stock updated: " +:+ (if 0 <? change then "+" else EmptyString)
    +:+ pretty change +:+ " " +:+ bloodType.

(** [handleUpdateStock]: the update is handed to the store as it
    comes; a failure of the call is caught and shown as a toast. *)
Definition handleUpdateStock (bloodType : string) (change : Z) (w : World) : World :=
  match currentUser (ui w) with
  | Some uid =>
      match updateHospitalStock uid bloodType change (db w) with
      | Some db' =>
          toast (toast_success (stockMessage bloodType change)) (push (setDb db' w))
      | None => toast (toast_error "Failed to update stock") w
      end
  | None => toast (toast_error "Failed to update stock") w
  end.

(** [handleCompleteAppointment]; [confirmAnswer] is what
    [window.confirm] returns. *)
Definition handleCompleteAppointment (appt : Appointment)
    (confirmedBloodType : string) (confirmAnswer : bool) (w : World) : World :=
  if negb (JS.truthy confirmedBloodType) then
    toast (toast_error "Please select the collected blood type.") w
  else if negb confirmAnswer then w
  else
    match currentUser (ui w), inventory (ui w) with
    | Some uid, Some inv =>
        match completeAppointment (id appt) uid confirmedBloodType
                (donorId appt) (hospitalName inv) "hospital" (db w) with
        | Some db' =>
            loadAppointments
              (toast (toast_success "Donation recorded successfully!")
                 (push (setDb db' w)))
        | None => toast (toast_error "Failed to complete appointment.") w
        end
    | _, _ => toast (toast_error "Failed to complete appointment.") w
    end.

Definition handleNoShow (apptId : string) (confirmAnswer : bool) (w : World) : World :=
  if negb confirmAnswer then w
  else
    match markAppointmentNoShow apptId (db w) with
    | Some db' =>
        loadAppointments (toast (toast_success "Marked as No-Show") (setDb db' w))
    | None => toast (toast_error "Failed to update status") w
    end.

(** *** StockCard *)

Record StockCardView := mkStockCard {
  cardType : string;
  cardCount : Z;
  isLow : bool;
  isCritical : bool;
  statusLabel : string;
  minusDisabled : bool
}.

Definition StockCard (type : string) (count : Z) : StockCardView :=
  let isLow := count <? 5 in
  let isCritical := count =? 0 in
  mkStockCard type count isLow isCritical
    (if isCritical then "OUT OF STOCK"
     else if isLow then "LOW STOCK" else "Units Available")
    (count <=? 0).

Inductive StockButton := Minus | Plus.

Definition buttonDelta (b : StockButton) : Z :=
  match b with Minus => -1 | Plus => 1 end.

(** A click on a button of the card; a disabled button does not
    fire [onClick]. *)
Definition clickStock (card : StockCardView) (b : StockButton) (w : World) : World :=
  match b with
  | Minus =>
      if minusDisabled card then w
      else handleUpdateStock (cardType card) (-1) w
  | Plus => handleUpdateStock (cardType card) 1 w
  end.

(** The cards of the stock tab. *)
Definition stockCards (inv : InventoryRecord) : list StockCardView :=
  map (fun type => StockCard type (JS.orZero (bloodStock inv !! type))) bloodTypes.

(** *** AppointmentCard *)

Record AppointmentCardView := mkAppointmentCard {
  isCompleted : bool;
  isNoShow : bool;
  (** The options of the blood-type select when the action row is
      rendered, [None] when it is not. *)
  actions : option (list string)
}.

Definition AppointmentCard (appt : Appointment) : AppointmentCardView :=
  let isCompleted := Status_eqb (status appt) completed in
  let isNoShow := Status_eqb (status appt) no_show in
  mkAppointmentCard isCompleted isNoShow
    (if negb isCompleted && negb isNoShow then Some bloodTypes else None).

(** The state [selectedType] of a card starts at ['A+']. *)
Definition initialSelectedType : string := "A+".

(** What the user can do on a card: pick an option of the select,
    press "Mark Completed", press "Mark No-Show" (each press comes
    with the answer given to [window.confirm]). *)
Inductive CardEvent :=
| ChangeType (value : string)
| ClickComplete (confirmAnswer : bool)
| ClickNoShow (confirmAnswer : bool).

(** An event on the card of [appt]: the controls exist only when
    the action row is rendered, and the select only offers its
    options. *)
Definition cardEvent (appt : Appointment) (ev : CardEvent)
    (st : string * World) : string * World :=
  match actions (AppointmentCard appt) with
  | None => st
  | Some options =>
      match ev with
      | ChangeType value =>
          if existsb (String.eqb value) options then (value, snd st) else st
      | ClickComplete answer =>
          (fst st, handleCompleteAppointment appt (fst st) answer (snd st))
      | ClickNoShow answer =>
          (fst st, handleNoShow (id appt) answer (snd st))
      end
  end.

(** *** DonationSchedule *)

Inductive View := active | past.

Definition filteredAppointments (appointments : list Appointment) (view : View)
    : list Appointment :=
  List.filter
    (fun appt =>
       let isActive := Status_eqb (status appt) scheduled in
       match view with
       | active => isActive
       | past => negb isActive
       end)
    appointments.

Definition displayAppointments (appointments : list Appointment) (view : View)
    (search : string) : list Appointment :=
  List.filter
    (fun appt => JS.includes (JS.toLowerCase (donorName appt)) (JS.toLowerCase search))
    (filteredAppointments appointments view).

(** One step of the [reduce]: the object [acc] is used as a map from
    date strings to arrays (dates are ISO calendar dates, which never
    meet a property inherited from [Object.prototype]). *)
Definition groupStep (acc : gmap string (list Appointment)) (appt : Appointment)
    : gmap string (list Appointment) :=
  let date := date appt in
  let acc := match acc !! date with
             | Some _ => acc
             | None => <[date := []]> acc
             end in
  alter (fun l => l ++ [appt]) date acc.

Definition grouped (display : list Appointment) : gmap string (list Appointment) :=
  fold_left groupStep display ∅.

(** [Object.keys(grouped).sort()]: the keys come in some order and
    are sorted by code units. *)
Definition sortedDates (display : list Appointment) : list string :=
  JS.sort JS.defaultCompare (map fst (map_to_list (grouped display))).

(** What the schedule renders: one section per date of [sortedDates]
    with the cards of [grouped[date]]. *)
Definition DonationSchedule (appointments : list Appointment) (view : View)
    (search : string) : list (string * list Appointment) :=
  let display := displayAppointments appointments view search in
  map (fun date => (date, default [] (grouped display !! date)))
    (sortedDates display).

(** *** The page *)

Inductive Page :=
| LoadingPage
| NotFoundPage
| StockTab (cards : list StockCardView)
| ScheduleTab (sections : list (string * list Appointment)).

Definition render (s : State) (view : View) (search : string) : Page :=
  if loading s then LoadingPage
  else
    match inventory s with
    | None => NotFoundPage
    | Some inv =>
        match activeTab s with
        | stock => StockTab (stockCards inv)
        | schedule => ScheduleTab (DonationSchedule (appointments s) view search)
        end
    end.

(** A press of button [b] on the card of [type], as the page shows it:
    the cards exist on the stock tab, one for each of the eight labels. *)
Definition pressStock (type : string) (b : StockButton) (w : World) : World :=
  if loading (ui w) then w
  else
    match inventory (ui w), activeTab (ui w) with
    | Some inv, stock =>
        if existsb (String.eqb type) bloodTypes
        then clickStock (StockCard type (JS.orZero (bloodStock inv !! type))) b w
        else w
    | _, _ => w
    end.

End HospitalDashboard.

(** ** LocationPickerMap *)

Module LocationPickerMap.
Section Numbers.

(** Coordinates are JavaScript numbers; the picker only copies them
    and prints them, so they are kept abstract together with their
    conversion to a string. *)
Context {number : Type} (toString : number -> string).

Record LatLng := mkLatLng { lat : number; lng : number }.

(** The object passed to [onLocationSelect]. *)
Record LocationData := mkLocationData {
  locLat : number;
  locLng : number;
  locAddress : string
}.

(** The body of a reverse-geocoding answer, as far as it is read. *)
Record NominatimReply := mkReply { display_name : option string }.

(** How a lookup ends: [fetch] rejects, [response.json()] rejects,
    or the body is parsed ([null] is [None]). *)
Inductive Lookup :=
| fetchRejected
| jsonRejected
| jsonResolved (data : option NominatimReply).

Record State := mkState { position : LatLng; address : string }.

Definition setPosition (p : LatLng) (s : State) : State := mkState p (address s).
Definition setAddress (a : string) (s : State) : State := mkState (position s) a.

(** The template [`${lat}, ${lng}`]. *)
Definition coordinateLabel (lat lng : number) : string :=
  toString lat +:+ ", " +:+ toString lng.

(** [data && data.display_name] *)
Definition displayName (data : option NominatimReply) : option string :=
  match data with
  | Some r =>
      match display_name r with
      | Some name => if JS.truthy name then Some name else None
      | None => None
      end
  | None => None
  end.

Section Parent.

(** The parent's state and its [onLocationSelect] callback. *)
Context {P : Type} (onLocationSelect : LocationData -> P -> P).

Definition fetchAddress (lat lng : number) (result : Lookup)
    (st : State * P) : State * P :=
  match result with
  | jsonResolved data =>
      match displayName data with
      | Some name =>
          (setAddress name (fst st),
           onLocationSelect (mkLocationData lat lng name) (snd st))
      | None =>
          (fst st,
           onLocationSelect (mkLocationData lat lng (coordinateLabel lat lng)) (snd st))
      end
  | fetchRejected | jsonRejected =>
      (fst st,
       onLocationSelect (mkLocationData lat lng (coordinateLabel lat lng)) (snd st))
  end.

Definition handleDragEnd (newPos : LatLng) := fetchAddress (lat newPos) (lng newPos).
Definition handleMapClick (newPos : LatLng) := fetchAddress (lat newPos) (lng newPos).

(** A click on the map ([MapClickHandler]) and the end of a drag of
    the marker ([DraggableMarker]), each followed by the lookup for
    the new position. *)
Definition mapClick (latlng : LatLng) (result : Lookup) (st : State * P) : State * P :=
  handleMapClick latlng result (setPosition latlng (fst st), snd st).

Definition markerDragEnd (newPos : LatLng) (result : Lookup) (st : State * P)
    : State * P :=
  handleDragEnd newPos result (setPosition newPos (fst st), snd st).

(** A result of the search box: [location.y] is the latitude,
    [location.x] the longitude. *)
Definition handleSearchResult (x y : number) (label : string) (st : State * P)
    : State * P :=
  let newPos := mkLatLng y x in
  (setAddress label (setPosition newPos (fst st)),
   onLocationSelect (mkLocationData (lat newPos) (lng newPos) label) (snd st)).

End Parent.

End Numbers.
End LocationPickerMap.

(** ** [new Date(string)] on date-only ISO strings *)

Module JSDate.

Definition digit (c : Ascii.ascii) : option Z :=
  let n := Ascii.N_of_ascii c in
  if ((48 <=? n) && (n <=? 57))%N then Some (Z.of_N n - 48) else None.

Definition isLeapYear (y : Z) : bool :=
  (y mod 4 =? 0) && (negb (y mod 100 =? 0) || (y mod 400 =? 0)).

Definition daysInMonth (y m : Z) : Z :=
  if m =? 2 then (if isLeapYear y then 29 else 28)
  else if (m =? 4) || (m =? 6) || (m =? 9) || (m =? 11) then 30
  else 31.

(** Days from 1970-01-01 to the civil date [y]-[m]-[d]. *)
Definition daysFromCivil (y m d : Z) : Z :=
  let y' := if m <=? 2 then y - 1 else y in
  let era := y' / 400 in
  let yoe := y' - era * 400 in
  let mp := if m <=? 2 then m + 9 else m - 3 in
  let doy := (153 * mp + 2) / 5 + d - 1 in
  let doe := yoe * 365 + yoe / 4 - yoe / 100 + doy in
  era * 146097 + doe - 719468.

Definition msPerDay : Z := 86400000.

(** The separator [-] (code unit 45). *)
Definition dash : Ascii.ascii := Ascii.ascii_of_N 45.

(** The fields of a string of the form [YYYY-MM-DD]. *)
Definition fields (s : string) : option (Z * Z * Z) :=
  match s with
  | String y1 (String y2 (String y3 (String y4 (String sep1
      (String m1 (String m2 (String sep2 (String d1 (String d2 EmptyString))))))))) =>
      if Ascii.eqb sep1 dash && Ascii.eqb sep2 dash then
        match digit y1, digit y2, digit y3, digit y4,
              digit m1, digit m2, digit d1, digit d2 with
        | Some a, Some b, Some c, Some d, Some e, Some f, Some g, Some h =>
            Some (1000 * a + 100 * b + 10 * c + d, 10 * e + f, 10 * g + h)
        | _, _, _, _, _, _, _, _ => None
        end
      else None
  | _ => None
  end.

(** The time value of [new Date(s)] for a date-only ISO string
    (midnight UTC of a day of the calendar); [None] is the [NaN] of
    an invalid date.  Other formats are not produced by a date
    input and are not modelled. *)
Definition getTime (s : string) : option Z :=
  match fields s with
  | Some (y, m, d) =>
      if (1 <=? m) && (m <=? 12) && (1 <=? d) && (d <=? daysInMonth y m)
      then Some (daysFromCivil y m d * msPerDay)
      else None
  | None => None
  end.

End JSDate.

(** ** The camp helpers of [../lib/firestore] *)

Module CampStore.
Section Numbers.

Context {number : Type}.

(** What the form submits. *)
Record CampFields := mkFields {
  fCampName : string;
  fOrganizerName : string;
  fContact : string;
  fAddress : string;
  fDate : string;
  fStartTime : string;
  fEndTime : string;
  fLocation : @LocationPickerMap.LatLng number
}.

Record DonationCamp := mkCamp {
  id : string;
  organizerId : string;
  campName : string;
  organizerName : string;
  contact : string;
  address : string;
  date : string;
  startTime : string;
  endTime : string;
  location : @LocationPickerMap.LatLng number
}.

Record Db := mkDb { camps : list DonationCamp; online : bool }.

(** Modelled from the spec: [addDonationCamp] of lib/firestore, which
    is not part of the sources; the Camp Store's
    [add(organizerId, campFields)] creates one camp document, and the
    call fails when the store cannot be reached. *)
Definition addDonationCamp (uid : string) (f : CampFields) (db : Db) : option Db :=
  if online db then
    Some (mkDb
            (camps db ++
               [mkCamp ("camp" +:+ pretty (length (camps db))) uid
                  (fCampName f) (fOrganizerName f) (fContact f) (fAddress f)
                  (fDate f) (fStartTime f) (fEndTime f) (fLocation f)])
            (online db))
  else None.

(** Modelled from the spec: [getDonationCamps] of lib/firestore, which
    is not part of the sources; the Camp Store's [list()] returns the
    camp documents. *)
Definition getDonationCamps (db : Db) : option (list DonationCamp) :=
  if online db then Some (camps db) else None.

End Numbers.
End CampStore.

(** ** OrganizerPortal *)

Module OrganizerPortal.
Section Numbers.

Context {number : Type}.

Local Abbreviation LatLng := (@LocationPickerMap.LatLng number).
Local Abbreviation DonationCamp := (@CampStore.DonationCamp number).

Record State := mkState {
  currentUser : option string;
  camps : list DonationCamp;
  loading : bool;
  campName : string;
  organizerName : string;
  contact : string;
  address : string;
  date : string;
  startTime : string;
  endTime : string;
  coordinates : LatLng;
  message : string
}.

Record World := mkWorld { db : @CampStore.Db number; ui : State }.

(** The state at mount; [center] is the default position
    ([{ lat: 40.7128, lng: -74.0060 }]). *)
Definition initialState (user : option string) (center : LatLng) : State :=
  mkState user [] false EmptyString EmptyString EmptyString EmptyString
    EmptyString EmptyString EmptyString center EmptyString.

(** The upcoming camps of [loadCamps]: [today] is the date part of
    [new Date().toISOString()]. *)
Definition upcoming (data : list DonationCamp) (today : string) : list DonationCamp :=
  JS.sort (JS.byDifference (fun camp => JSDate.getTime (CampStore.date camp)))
    (List.filter (fun camp => String.leb today (CampStore.date camp)) data).

Definition setCamps (l : list DonationCamp) (s : State) : State :=
  mkState (currentUser s) l (loading s) (campName s) (organizerName s) (contact s)
    (address s) (date s) (startTime s) (endTime s) (coordinates s) (message s).

Definition setLoading (b : bool) (s : State) : State :=
  mkState (currentUser s) (camps s) b (campName s) (organizerName s) (contact s)
    (address s) (date s) (startTime s) (endTime s) (coordinates s) (message s).

Definition setMessage (m : string) (s : State) : State :=
  mkState (currentUser s) (camps s) (loading s) (campName s) (organizerName s)
    (contact s) (address s) (date s) (startTime s) (endTime s) (coordinates s) m.

Definition setAddress (a : string) (s : State) : State :=
  mkState (currentUser s) (camps s) (loading s) (campName s) (organizerName s)
    (contact s) a (date s) (startTime s) (endTime s) (coordinates s) (message s).

Definition setCoordinates (c : LatLng) (s : State) : State :=
  mkState (currentUser s) (camps s) (loading s) (campName s) (organizerName s)
    (contact s) (address s) (date s) (startTime s) (endTime s) c (message s).

(** The seven setters called with [''] after a successful submission. *)
Definition resetForm (s : State) : State :=
  mkState (currentUser s) (camps s) (loading s) EmptyString EmptyString EmptyString
    EmptyString EmptyString EmptyString EmptyString (coordinates s) (message s).

Definition loadCamps (today : string) (w : World) : World :=
  match CampStore.getDonationCamps (db w) with
  | Some data => mkWorld (db w) (setCamps (upcoming data today) (ui w))
  | None => w
  end.

Definition handleLocationSelect
    (locationData : @LocationPickerMap.LocationData number) (s : State) : State :=
  let s := setCoordinates
             (LocationPickerMap.mkLatLng (LocationPickerMap.locLat locationData)
                (LocationPickerMap.locLng locationData)) s in
  if JS.truthy (LocationPickerMap.locAddress locationData)
  then setAddress (LocationPickerMap.locAddress locationData) s
  else s.

Definition formFields (s : State) : @CampStore.CampFields number :=
  CampStore.mkFields (campName s) (organizerName s) (contact s) (address s)
    (date s) (startTime s) (endTime s) (coordinates s).

(** [handleAddCamp]; the timer that clears the message three seconds
    later is [messageTimeout]. *)
Definition handleAddCamp (today : string) (w : World) : World :=
  let w := mkWorld (db w) (setLoading true (ui w)) in
  let w :=
    match currentUser (ui w) with
    | Some uid =>
        match CampStore.addDonationCamp uid (formFields (ui w)) (db w) with
        | Some db' =>
            loadCamps today
              (mkWorld db'
                 (resetForm (setMessage "Donation camp added successfully!" (ui w))))
        | None =>
            mkWorld (db w) (setMessage "Error adding camp. Please try again." (ui w))
        end
    | None => mkWorld (db w) (setMessage "Error adding camp. Please try again." (ui w))
    end in
  mkWorld (db w) (setLoading false (ui w)).

Definition messageTimeout (w : World) : World :=
  mkWorld (db w) (setMessage EmptyString (ui w)).

End Numbers.
End OrganizerPortal.

(** ** The properties, in the words of the specification *)

Module Spec.
Import Firestore.

(** [term] occurs in [name] when the two are compared after
    [JS.toLowerCase]; [CaseSpec.containsUpToCase] says it letter by
    letter. *)
Definition containsIgnoringCase (name term : string) : Prop :=
  exists pre mid post : string,
    name = pre +:+ mid +:+ post /\ JS.toLowerCase mid = JS.toLowerCase term.

(** The view selects the scheduled appointments ([active]) or the
    completed and no-show ones ([past]). *)
Definition inView (view : HospitalDashboard.View) (appt : Appointment) : Prop :=
  match view with
  | HospitalDashboard.active => status appt = scheduled
  | HospitalDashboard.past => status appt = completed \/ status appt = no_show
  end.

Definition terminal (appt : Appointment) : Prop :=
  status appt = completed \/ status appt = no_show.

(** A lookup that fails or carries no display address. *)
Inductive noDisplayAddress : LocationPickerMap.Lookup -> Prop :=
| lookup_fetch_failed : noDisplayAddress LocationPickerMap.fetchRejected
| lookup_body_unreadable : noDisplayAddress LocationPickerMap.jsonRejected
| lookup_null : noDisplayAddress (LocationPickerMap.jsonResolved None)
| lookup_no_name :
    noDisplayAddress
      (LocationPickerMap.jsonResolved (Some (LocationPickerMap.mkReply None)))
| lookup_empty_name :
    noDisplayAddress
      (LocationPickerMap.jsonResolved
         (Some (LocationPickerMap.mkReply (Some EmptyString)))).

(** A date string that [new Date] accepts as a day of the calendar. *)
Definition validDate (s : string) : Prop := is_Some (JSDate.getTime s).

(** [a] is dated no later than [b], by the time values of their dates. *)
Definition notLater {number : Type} (a b : @CampStore.DonationCamp number) : Prop :=
  match JSDate.getTime (CampStore.date a), JSDate.getTime (CampStore.date b) with
  | Some x, Some y => x <= y
  | _, _ => False
  end.

End Spec.

(** ** Auxiliary notions used in the statements *)

Module Aux.
Import Firestore.

(** The appointments of one date, in the order of the list. *)
Definition onDate (d : string) (l : list Appointment) : list Appointment :=
  List.filter (fun a => String.eqb (date a) d) l.

(** The count of a blood type in a record that may be missing. *)
Definition countOf (r : option InventoryRecord) (bloodType : string) : option Z :=
  (fun inv => stockOf inv bloodType) <$> r.

(** The status of the appointment document [apptId] in the store. *)
Definition statusIn (d : Db) (apptId : string) : option Status :=
  status <$> List.find (fun a => String.eqb (id a) apptId) (appointments d).

(** The inventory shown is the one of the store. *)
Definition inStep (w : HospitalDashboard.World) : Prop :=
  exists uid,
    HospitalDashboard.currentUser (HospitalDashboard.ui w) = Some uid /\
    HospitalDashboard.inventory (HospitalDashboard.ui w)
    = inventories (HospitalDashboard.db w) !! uid.

(** No count of the inventory shown is negative. *)
Definition nonNegative (w : HospitalDashboard.World) : Prop :=
  forall inv bloodType,
    HospitalDashboard.inventory (HospitalDashboard.ui w) = Some inv ->
    0 <= stockOf inv bloodType.

(** Days from the epoch to the first day of March of year [y]. *)
Definition yearBase (y : Z) : Z :=
  let era := y / 400 in
  let yoe := y - era * 400 in
  era * 146097 + yoe * 365 + yoe / 4 - yoe / 100 - 719468.

(** Days from the first of March to the first day of month [m]. *)
Definition monthOffset (m : Z) : Z :=
  if m =? 1 then 306 else if m =? 2 then 337 else if m =? 3 then 0
  else if m =? 4 then 31 else if m =? 5 then 61 else if m =? 6 then 92
  else if m =? 7 then 122 else if m =? 8 then 153 else if m =? 9 then 184
  else if m =? 10 then 214 else if m =? 11 then 245 else 275.

(** A date as one number: the order of these numbers is the order of
    the calendar. *)
Definition dateKey (y m d : Z) : Z := y * 10000 + m * 100 + d.

Definition validFields (y m d : Z) : Prop :=
  1 <= m <= 12 /\ 1 <= d <= JSDate.daysInMonth y m.

End Aux.

(** ** Sample data *)

Module Samples.
Import Firestore HospitalDashboard.

Definition cityHospital : InventoryRecord :=
  mkInventory "City Hospital" "1 Main St"
    (<["O+" := 0]> (<["A+" := 7]> (<["B-" := 3]> ∅))) 1700000000000.

Definition jane : Appointment :=
  mkAppointment "a1" "d1" "Jane Doe" "2024-06-02" "10:00 - 10:30" scheduled "h1".

Definition john : Appointment :=
  mkAppointment "a2" "d2" "John Roe" "2024-06-01" "09:00 - 09:30" completed "h1".

Definition janet : Appointment :=
  mkAppointment "a3" "d3" "JANET Poe" "2024-06-01" "11:00 - 11:30" no_show "h1".

Definition jim : Appointment :=
  mkAppointment "a4" "d4" "Jim Low" "2024-06-01" "12:00 - 12:30" scheduled "h1".

Definition store : Db :=
  mkDb (<["h1" := cityHospital]> ∅) [jane; john; janet; jim] [] 1700000360000 true.

(** The dashboard of venue [h1] once the inventory and the
    appointments are loaded. *)
Definition world : World :=
  mkWorld store (mkState (Some "h1") (Some cityHospital) [jane; john; janet; jim]
                   false stock []).

(** Camps and a filled form; coordinates are written in millionths of
    a degree. *)
Definition center : @LocationPickerMap.LatLng Z :=
  LocationPickerMap.mkLatLng 40712800 (-74006000).

Definition camp (campId campDate : string) : @CampStore.DonationCamp Z :=
  CampStore.mkCamp campId "org1" "City Center Blood Drive" "Red Cross NY"
    "+1 234 567 8900" "123 Main St, New York" campDate "09:00" "17:00" center.

Definition camps : list (@CampStore.DonationCamp Z) :=
  [camp "c1" "2024-06-03"; camp "c2" "2024-05-30"; camp "c3" "2024-06-01"].

Definition portal : @OrganizerPortal.World Z :=
  OrganizerPortal.mkWorld (CampStore.mkDb camps true)
    (OrganizerPortal.mkState (Some "org1") [] false "Summer Drive" "Red Cross NY"
       "+1 234 567 8900" "123 Main St, New York" "2024-06-05" "09:00" "17:00"
       center EmptyString).

End Samples.

(** ** AuthContext *)

Module AuthContext.

(** What [getUserProfile] answers with, as far as it is read
    ([profile?.role]). *)
Record Profile := mkProfile { role : option string }.

(** How the call of [getUserProfile] ends: the promise rejects, or it
    resolves with a profile or with nothing. *)
Inductive ProfileFetch :=
| profileRejected
| profileResolved (profile : option Profile).

(** The state of the provider; a user is known by its uid. *)
Record State := mkState {
  currentUser : option string;
  loading : bool;
  userRole : option string
}.

Definition initialState : State := mkState None true None.

Definition setCurrentUser (u : option string) (s : State) : State :=
  mkState u (loading s) (userRole s).

Definition setLoading (b : bool) (s : State) : State :=
  mkState (currentUser s) b (userRole s).

Definition setUserRole (r : option string) (s : State) : State :=
  mkState (currentUser s) (loading s) r.

(** The callback given to [onAuthStateChanged], from its call to its
    last write; [fetch] is how its call of [getUserProfile] ends. *)
Definition authStateChanged (user : option string) (fetch : ProfileFetch)
    (s : State) : State :=
  let s :=
    match user with
    | Some u =>
        let s :=
          match fetch with
          | profileResolved profile => setUserRole (profile ≫= role) s
          | profileRejected => setUserRole None s
          end in
        setCurrentUser (Some u) s
    | None => setUserRole None (setCurrentUser None s)
    end in
  setLoading false s.

(** The provider renders [{!loading && children}]. *)
Definition childrenRendered (s : State) : bool := negb (loading s).

(** The state after the callbacks for [events] have run one after the
    other, each to its end, oldest first.  [AuthEvents] has the call
    and the end of its profile fetch apart. *)
Definition afterEvents (events : list (option string * ProfileFetch)) (s : State)
    : State :=
  fold_left (fun s e => authStateChanged (fst e) (snd e) s) events s.

(** The calls made to the auth service. *)
Inductive AuthCall :=
| createUserWithEmailAndPassword (email password : string)
| updateProfile (user displayName : string)
| signInWithEmailAndPassword (email password : string)
| signOut.

(** [signup]: [created] is the user of the credential when the account
    is created ([None] when the call rejects), [updated] says whether
    [updateProfile] resolves.  The result is the calls made and the
    user of the credential the promise resolves with ([None] when it
    rejects). *)
Definition signup (email password fullName : string) (created : option string)
    (updated : bool) : list AuthCall * option string :=
  match created with
  | Some u =>
      if JS.truthy fullName then
        ([createUserWithEmailAndPassword email password; updateProfile u fullName],
         if updated then Some u else None)
      else ([createUserWithEmailAndPassword email password], Some u)
  | None => ([createUserWithEmailAndPassword email password], None)
  end.

End AuthContext.

(** ** LocationPickerMap: sequences of picks *)

Module PickerSession.
Section Numbers.
Import LocationPickerMap.

Context {number : Type} (toString : number -> string).

(** The text under "Selected Location:"
    ([address || "Search or click on map to select"]). *)
Definition overlayAddress (s : @State number) : string :=
  if JS.truthy (address s) then address s else "Search or click on map to select".

(** The state at mount; [center] is the default position. *)
Definition initialState (center : @LatLng number) : @State number :=
  mkState center EmptyString.

(** What happens on the map: a click or the end of a drag, together
    with the answer of its lookup, or a result picked in the search
    box. *)
Inductive Event :=
| Click (latlng : @LatLng number) (result : Lookup)
| DragEnd (newPos : @LatLng number) (result : Lookup)
| SearchResult (x y : number) (label : string).

Section Parent.

Context {P : Type} (onLocationSelect : @LocationData number -> P -> P).

Definition step (st : @State number * P) (ev : Event) : @State number * P :=
  match ev with
  | Click latlng result => mapClick toString onLocationSelect latlng result st
  | DragEnd newPos result => markerDragEnd toString onLocationSelect newPos result st
  | SearchResult x y label => handleSearchResult onLocationSelect x y label st
  end.

Definition run (events : list Event) (st : @State number * P) : @State number * P :=
  fold_left step events st.

(** A click whose lookup has not answered yet: only [setPosition] has
    run. *)
Definition clickStarts (latlng : @LatLng number) (st : @State number * P)
    : @State number * P :=
  (setPosition latlng (fst st), snd st).

(** The answer of the lookup started by a click on [latlng]. *)
Definition lookupAnswers (latlng : @LatLng number) (result : Lookup)
    (st : @State number * P) : @State number * P :=
  handleMapClick toString onLocationSelect latlng result st.

End Parent.

End Numbers.
End PickerSession.

(** ** More sample data *)

Module MoreSamples.
Import Firestore HospitalDashboard.

(** The dashboard of [Samples.world] when the store cannot be reached. *)
Definition offlineWorld : World :=
  mkWorld (mkDb (inventories Samples.store) (Firestore.appointments Samples.store)
             (donations Samples.store) (clock Samples.store) false)
    (ui Samples.world).

(** The portal of [Samples.portal] when the store cannot be reached. *)
Definition offlinePortal : @OrganizerPortal.World Z :=
  OrganizerPortal.mkWorld (CampStore.mkDb Samples.camps false)
    (OrganizerPortal.ui Samples.portal).

Definition uptown : @LocationPickerMap.LatLng Z :=
  LocationPickerMap.mkLatLng 40800000 (-73950000).

End MoreSamples.

(** ** Case and code units *)

(** Containment up to case, said without [toLowerCase]. *)

Module CaseSpec.

(** Every code unit of the string is below 128.  On such a string a
    byte is a UTF-16 code unit, and [String.prototype.toLowerCase]
    moves the letters A..Z and nothing else, which is what
    [JS.toLowerCase] does. *)
Fixpoint isAscii (s : string) : bool :=
  match s with
  | EmptyString => true
  | String c s' => (Ascii.N_of_ascii c <? 128)%N && isAscii s'
  end.




End CaseSpec.

(** Strings by their UTF-16 code units, with the lower-casing of
    [String.prototype.toLowerCase] on Basic Latin, on the Latin-1
    Supplement and on the Greek capital and small letters (alpha to
    omega).  Lower-casing is the Unicode default case conversion:
    letter by letter, except that a capital sigma becomes the final
    small sigma when it ends a word (condition Final_Sigma of the
    Unicode standard).  Other code units are outside this table. *)

Module Unicode.
Local Open Scope N_scope.

(** A..Z, and the capital letters of the Latin-1 Supplement
    (U+00C0..U+00D6, U+00D8..U+00DE). *)
Definition isUpperLatin (c : N) : bool :=
  ((65 <=? c) && (c <=? 90)) || ((192 <=? c) && (c <=? 214))
  || ((216 <=? c) && (c <=? 222)).

(** a..z, and the code units of the Latin-1 Supplement with property
    Lowercase (U+00AA, U+00B5, U+00BA, U+00DF..U+00F6,
    U+00F8..U+00FF). *)
Definition isLowerLatin (c : N) : bool :=
  ((97 <=? c) && (c <=? 122)) || (c =? 170) || (c =? 181) || (c =? 186)
  || ((223 <=? c) && (c <=? 246)) || ((248 <=? c) && (c <=? 255)).

(** Capital alpha to rho and sigma to omega (U+0391..U+03A1,
    U+03A3..U+03A9). *)
Definition isUpperGreek (c : N) : bool :=
  ((913 <=? c) && (c <=? 929)) || ((931 <=? c) && (c <=? 937)).

(** Small alpha to omega, the final sigma among them
    (U+03B1..U+03C9). *)
Definition isLowerGreek (c : N) : bool := (945 <=? c) && (c <=? 969).


(** Property Cased of the table's code units. *)
Definition cased (c : N) : bool :=
  isUpperLatin c || isLowerLatin c || isUpperGreek c || isLowerGreek c.

(** Property Case_Ignorable of the table's code units: the
    apostrophe, the full stop, the colon, the circumflex and the grave
    accent; the diaeresis, the soft hyphen, the macron, the acute
    accent, the middle dot and the cedilla. *)
Definition caseIgnorable (c : N) : bool :=
  (c =? 39) || (c =? 46) || (c =? 58) || (c =? 94) || (c =? 96)
  || (c =? 168) || (c =? 173) || (c =? 175) || (c =? 180) || (c =? 183)
  || (c =? 184).

Definition capitalSigma : N := 931.

Definition smallSigma : N := 963.

Definition finalSigma : N := 962.

(** The simple lower-case mapping. *)
Definition lowerUnit (c : N) : N :=
  if isUpperLatin c || isUpperGreek c then c + 32 else c.

Fixpoint skipIgnorable (l : list N) : list N :=
  match l with
  | c :: l' => if caseIgnorable c then skipIgnorable l' else l
  | [] => []
  end.

(** The first code unit of [l] that is not case-ignorable is cased. *)
Definition casedNext (l : list N) : bool :=
  match skipIgnorable l with
  | c :: _ => cased c
  | [] => false
  end.

(** Final_Sigma: a cased letter comes before (case-ignorable code
    units apart) and none comes after.  [before] is what precedes, the
    nearest code unit first. *)
Definition isFinalSigma (before after : list N) : bool :=
  casedNext before && negb (casedNext after).

Fixpoint lowerFrom (before s : list N) : list N :=
  match s with
  | [] => []
  | c :: rest =>
      (if c =? capitalSigma
       then if isFinalSigma before rest then finalSigma else smallSigma
       else lowerUnit c)
      :: lowerFrom (c :: before) rest
  end.

Definition toLowerCase (s : list N) : list N := lowerFrom [] s.

Fixpoint startsWith (s t : list N) : bool :=
  match t, s with
  | [], _ => true
  | _ :: _, [] => false
  | b :: t', a :: s' => (a =? b) && startsWith s' t'
  end.

Fixpoint includes (s t : list N) : bool :=
  startsWith s t ||
  match s with
  | [] => false
  | _ :: s' => includes s' t
  end.

(** The test of the search filter of [DonationSchedule]:
    [appt.donorName.toLowerCase().includes(search.toLowerCase())]. *)
Definition nameMatches (donorName search : list N) : bool :=
  includes (toLowerCase donorName) (toLowerCase search).

(** The code units of a string of 8-bit code units. *)
Fixpoint units (s : string) : list N :=
  match s with
  | EmptyString => []
  | String c s' => Ascii.N_of_ascii c :: units s'
  end.

End Unicode.

(** ** HospitalDashboard: presses and snapshots apart *)

(** [HospitalDashboard.handleUpdateStock] writes the inventory shown
    together with the store, that is, it takes the snapshot of an
    update to arrive before anything else happens.  Here the two are
    apart, as in the source: the handler calls the store and shows its
    toast, and [setInventory] runs in the subscription callback, when
    the snapshot arrives. *)

Module StockEvents.
Import Firestore HospitalDashboard.

Definition handleUpdateStock (bloodType : string) (change : Z) (w : World) : World :=
  match currentUser (ui w) with
  | Some uid =>
      match updateHospitalStock uid bloodType change (db w) with
      | Some db' => toast (toast_success (stockMessage bloodType change)) (setDb db' w)
      | None => toast (toast_error "Failed to update stock") w
      end
  | None => toast (toast_error "Failed to update stock") w
  end.

(** A click on a button of the card; a disabled button does not fire
    [onClick]. *)
Definition clickStock (card : StockCardView) (b : StockButton) (w : World) : World :=
  match b with
  | Minus =>
      if minusDisabled card then w
      else handleUpdateStock (cardType card) (-1) w
  | Plus => handleUpdateStock (cardType card) 1 w
  end.

(** A press of button [b] on the card of [type], as the page shows it
    from the inventory it holds. *)
Definition pressStock (type : string) (b : StockButton) (w : World) : World :=
  if loading (ui w) then w
  else
    match inventory (ui w), activeTab (ui w) with
    | Some inv, stock =>
        if existsb (String.eqb type) bloodTypes
        then clickStock (StockCard type (JS.orZero (bloodStock inv !! type))) b w
        else w
    | _, _ => w
    end.

(** What happens to the stock tab: a press, or the arrival of the
    snapshot of the store. *)
Inductive Event :=
| Press (type : string) (b : StockButton)
| Snapshot.

Definition step (w : World) (ev : Event) : World :=
  match ev with
  | Press type b => pressStock type b w
  | Snapshot => push w
  end.

Definition run (events : list Event) (w : World) : World := fold_left step events w.

(** The presses [presses], the snapshot arriving after each of them
    and before the next. *)
Definition inTurn (presses : list (string * StockButton)) : list Event :=
  flat_map (fun p => [Press (fst p) (snd p); Snapshot]) presses.

(** [n] presses on the minus button of [type] with no snapshot in
    between. *)
Definition minusPresses (type : string) (n : nat) : list Event :=
  repeat (Press type Minus) n.

End StockEvents.

(** ** AuthContext: the callback and its profile fetch apart *)

(** [AuthContext.authStateChanged] is the whole callback, from its
    call to its last write.  The callback given a user awaits
    [getUserProfile] before it writes anything; here the call and the
    end of the fetch are apart. *)

Module AuthEvents.
Import AuthContext.

(** What happens to the provider: the callback of
    [onAuthStateChanged] is called, with a user or with none, or the
    profile fetch started by an earlier call for [user] ends. *)
Inductive Event :=
| Called (user : option string)
| FetchEnds (user : string) (fetch : ProfileFetch).

Definition step (s : State) (ev : Event) : State :=
  match ev with
  | Called (Some _) => s
  | Called None => setLoading false (setUserRole None (setCurrentUser None s))
  | FetchEnds u fetch =>
      let s :=
        match fetch with
        | profileResolved profile => setUserRole (profile ≫= role) s
        | profileRejected => setUserRole None s
        end in
      setLoading false (setCurrentUser (Some u) s)
  end.

Definition run (events : list Event) (s : State) : State := fold_left step events s.

(** The calls [calls] of the callback, each with the way its profile
    fetch ends, when every fetch ends before the next call. *)
Definition inTurn (calls : list (option string * ProfileFetch)) : list Event :=
  flat_map
    (fun c =>
       match fst c with
       | Some u => [Called (Some u); FetchEnds u (snd c)]
       | None => [Called None]
       end)
    calls.

End AuthEvents.

(** * Properties *)

(** ** Stock cards *)

Section StockCardFacts.
Import Firestore HospitalDashboard.

Lemma orZero_default (x : option Z) : JS.orZero x = default 0 x.
Proof. destruct x as [n|]; [|done]. simpl. destruct (Z.eqb_spec n 0); congruence. Qed.

(** C3: the label of a stock card depends on the count alone; for a
    count of the inventory (never negative) it reads OUT OF STOCK
    exactly at 0, LOW STOCK exactly between 1 and 4 and Units Available
    exactly from 5 on, so 4 is low and 5 is normal. *)
Theorem stock_status_by_count (type : string) (count : Z) :
  0 <= count ->
  (statusLabel (StockCard type count) = "OUT OF STOCK" <-> count = 0) /\
  (statusLabel (StockCard type count) = "LOW STOCK" <-> 0 < count < 5) /\
  (statusLabel (StockCard type count) = "Units Available" <-> 5 <= count) /\
  statusLabel (StockCard type 4) = "LOW STOCK" /\
  statusLabel (StockCard type 5) = "Units Available" /\
  (forall type' : string,
     statusLabel (StockCard type' count) = statusLabel (StockCard type count)).
Proof.
  intros Hc. unfold StockCard; cbn [statusLabel].
  destruct (Z.eqb_spec count 0), (Z.ltb_spec count 5);
    repeat split; intros; try congruence; try reflexivity; lia.
Qed.

Lemma stock_status_by_count_witness :
  0 <= 3 /\ (statusLabel (StockCard "O+" 3) = "LOW STOCK" <-> 0 < 3 < 5).
Proof.
  split; [lia | apply (stock_status_by_count "O+" 3); lia].
Defined.

(** The flags behind the label: [isCritical] is [count === 0] and
    [isLow] is [count < 5]. *)
Lemma stock_flags (type : string) (count : Z) :
  (isCritical (StockCard type count) = true <-> count = 0) /\
  (isLow (StockCard type count) = true <-> count < 5).
Proof.
  unfold StockCard; cbn [isCritical isLow].
  destruct (Z.eqb_spec count 0), (Z.ltb_spec count 5); split; split; intros;
    try congruence; try reflexivity; lia.
Qed.

(** Below zero the card still reads LOW STOCK. *)
Lemma negative_count_reads_low (type : string) (count : Z) :
  count < 0 -> statusLabel (StockCard type count) = "LOW STOCK".
Proof.
  intros H. unfold StockCard; cbn [statusLabel].
  destruct (Z.eqb_spec count 0); [lia|]. destruct (Z.ltb_spec count 5); [done|lia].
Qed.

Lemma stockCards_types (inv : InventoryRecord) :
  map cardType (stockCards inv) = bloodTypes.
Proof. reflexivity. Qed.

(** C9: when one of the eight labels is not a key of [bloodStock], the
    stock tab still renders the eight cards, and the card of that label
    shows the count 0 and reads OUT OF STOCK. *)
Theorem missing_type_shown_critical (s : State) (inv : InventoryRecord)
    (view : View) (search type : string) :
  loading s = false -> inventory s = Some inv -> activeTab s = stock ->
  In type bloodTypes -> bloodStock inv !! type = None ->
  exists cards : list StockCardView,
    render s view search = StockTab cards /\
    map cardType cards = bloodTypes /\
    In (StockCard type 0) cards /\
    (forall card, In card cards -> cardType card = type -> cardCount card = 0) /\
    isCritical (StockCard type 0) = true /\
    statusLabel (StockCard type 0) = "OUT OF STOCK".
Proof.
  intros Hl Hi Ht Hin Hnone. exists (stockCards inv).
  unfold render. rewrite Hl, Hi, Ht. split; [done|]. split; [done|].
  split; [|split; [|done]].
  - unfold stockCards. apply in_map_iff. exists type. by rewrite Hnone.
  - intros card [t [<- _]]%in_map_iff Heq. simpl in Heq. subst t. by rewrite Hnone.
Qed.

Lemma missing_type_shown_critical_witness :
  exists cards : list StockCardView,
    render (ui Samples.world) active EmptyString = StockTab cards /\
    In (StockCard "AB+" 0) cards.
Proof.
  destruct (missing_type_shown_critical (ui Samples.world) Samples.cityHospital
              active EmptyString "AB+" eq_refl eq_refl eq_refl)
    as (cards & H1 & _ & H2 & _).
  - cbn. tauto.
  - reflexivity.
  - exists cards. split; assumption.
Defined.

End StockCardFacts.

(** ** Stock updates *)

Section StockUpdates.
Import Firestore HospitalDashboard.

(** What [handleUpdateStock] does when the store answers: whatever
    the count and the change, the sum is stored and pushed back. *)
Lemma handleUpdateStock_forwards (w : World) (uid : string) (inv : InventoryRecord)
    (type : string) (change : Z) :
  currentUser (ui w) = Some uid ->
  inventories (db w) !! uid = Some inv ->
  online (db w) = true ->
  handleUpdateStock type change w =
    let inv' := increment type change (clock (db w)) inv in
    mkWorld
      (mkDb (<[uid := inv']> (inventories (db w))) (Firestore.appointments (db w))
         (donations (db w)) (clock (db w)) true)
      (mkState (Some uid) (Some inv') (appointments (ui w)) false (activeTab (ui w))
         (toasts (ui w) ++ [toast_success (stockMessage type change)])).
Proof.
  intros Hu Hi Ho. unfold handleUpdateStock, updateHospitalStock.
  rewrite Hu, Ho, Hi. unfold push, setDb, toast, onSnapshot, snapshot.
  cbn [ui db currentUser inventories]. rewrite Hu, lookup_insert_eq. reflexivity.
Qed.

(** A failed call changes neither the store nor the inventory shown. *)
Lemma handleUpdateStock_offline (w : World) (type : string) (change : Z) :
  online (db w) = false ->
  handleUpdateStock type change w = toast (toast_error "Failed to update stock") w.
Proof.
  intros Ho. unfold handleUpdateStock, updateHospitalStock. rewrite Ho.
  by destruct (currentUser (ui w)).
Qed.

Lemma increment_lookup (type t : string) (change now : Z) (inv : InventoryRecord) :
  bloodStock (increment type change now inv) !! t =
    if decide (type = t) then Some (stockOf inv type + change) else bloodStock inv !! t.
Proof. unfold increment. cbn [bloodStock]. apply lookup_insert. Qed.

(** C1, as the code has it: on the card of a count [c >= 0] that is in
    step with the store, a button (delta -1 or +1) whose result would be
    negative is disabled and changes nothing; any other press stores
    and shows exactly [c + delta] and leaves the other counts alone. *)
Theorem stock_button_applies_delta (w : World) (uid : string)
    (inv : InventoryRecord) (type : string) (b : StockButton) :
  currentUser (ui w) = Some uid ->
  inventory (ui w) = Some inv ->
  inventories (db w) !! uid = Some inv ->
  online (db w) = true ->
  let c := JS.orZero (bloodStock inv !! type) in
  let w' := clickStock (StockCard type c) b w in
  0 <= c ->
  (c + buttonDelta b < 0 -> w' = w) /\
  (0 <= c + buttonDelta b ->
   exists inv',
     inventories (db w') !! uid = Some inv' /\
     inventory (ui w') = Some inv' /\
     JS.orZero (bloodStock inv' !! type) = c + buttonDelta b /\
     (forall t, t <> type -> bloodStock inv' !! t = bloodStock inv !! t) /\
     Firestore.appointments (db w') = Firestore.appointments (db w)).
Proof.
  intros Hu Hinv Hi Ho c w' Hc. subst w'. unfold clickStock, StockCard.
  cbn [minusDisabled cardType]. split.
  - intros Hneg. destruct b; cbn [buttonDelta] in Hneg; [|lia].
    destruct (Z.leb_spec c 0); [done | lia].
  - intros Hpos.
    assert (Hfw : (match b with
                   | Minus => if c <=? 0 then w else handleUpdateStock type (-1) w
                   | Plus => handleUpdateStock type 1 w
                   end) = handleUpdateStock type (buttonDelta b) w).
    { destruct b; cbn [buttonDelta] in *; [|done].
      destruct (Z.leb_spec c 0); [lia | done]. }
    rewrite Hfw, (handleUpdateStock_forwards w uid inv) by done.
    cbn [db ui inventories inventory Firestore.appointments].
    eexists. split; [apply lookup_insert_eq|]. split; [reflexivity|].
    split; [|split; [|reflexivity]].
    + rewrite increment_lookup, decide_True by done.
      subst c. rewrite !orZero_default in *. reflexivity.
    + intros t Ht. rewrite increment_lookup, decide_False by done. done.
Qed.

Lemma stock_button_applies_delta_witness :
  clickStock (StockCard "O+" 0) Minus Samples.world = Samples.world /\
  exists inv',
    inventory (ui (clickStock (StockCard "A+" 7) Minus Samples.world)) = Some inv' /\
    JS.orZero (bloodStock inv' !! "A+") = 6.
Proof.
  split.
  - apply (stock_button_applies_delta Samples.world "h1" Samples.cityHospital "O+" Minus
             eq_refl eq_refl eq_refl eq_refl); vm_compute; congruence.
  - destruct (stock_button_applies_delta Samples.world "h1" Samples.cityHospital "A+"
                Minus eq_refl eq_refl eq_refl eq_refl) as [_ H].
    + vm_compute; congruence.
    + destruct H as (inv' & _ & H1 & H2 & _).
      * vm_compute; congruence.
      * exists inv'. split; assumption.
Defined.

(** The buttons keep the inventory of the data model: counts that are
    in step with the store and not negative stay so under any sequence
    of presses, whether the store answers or not. *)
Lemma pressStock_invariant (type : string) (b : StockButton) (w : World) :
  Aux.inStep w /\ Aux.nonNegative w ->
  Aux.inStep (pressStock type b w) /\ Aux.nonNegative (pressStock type b w).
Proof.
  intros [Hstep Hnn]. unfold pressStock.
  destruct (loading (ui w)); [done|].
  destruct (inventory (ui w)) as [inv|] eqn:Einv; [|done].
  destruct (activeTab (ui w)); [|done].
  destruct (existsb _ bloodTypes); [|done].
  set (c := JS.orZero (bloodStock inv !! type)).
  assert (Hc : 0 <= c /\ c = stockOf inv type).
  { subst c. rewrite orZero_default. split; [|done]. by apply (Hnn inv type). }
  destruct Hc as [Hc Hcs].
  assert (Hkeep : forall t, Aux.inStep (toast t w) /\ Aux.nonNegative (toast t w)).
  { intros t. split.
    - destruct Hstep as (uid & Hu & Hi). exists uid. done.
    - intros inv' bt H. apply Hnn. exact H. }
  assert (Hupd : forall delta, 0 <= c + delta ->
            Aux.inStep (handleUpdateStock type delta w)
            /\ Aux.nonNegative (handleUpdateStock type delta w)).
  { intros delta Hd. destruct Hstep as (uid & Hu & Hi).
    destruct (online (db w)) eqn:Ho.
    - rewrite Einv in Hi. symmetry in Hi.
      rewrite (handleUpdateStock_forwards w uid inv) by done. split.
      + exists uid. cbn. by rewrite lookup_insert_eq.
      + intros inv' bt [= <-]. unfold stockOf at 1. rewrite increment_lookup.
        destruct (decide (type = bt)); cbn [default]; [unfold Datatypes.id; lia|].
        by apply (Hnn inv bt).
    - rewrite handleUpdateStock_offline by done. apply Hkeep. }
  unfold clickStock, StockCard. cbn [minusDisabled cardType].
  destruct b.
  - destruct (Z.leb_spec c 0); [done|]. apply Hupd. lia.
  - apply Hupd. lia.
Qed.

Lemma stock_counts_stay_non_negative (presses : list (string * StockButton))
    (w : World) :
  Aux.inStep w -> Aux.nonNegative w ->
  Aux.nonNegative (fold_left (fun w p => pressStock (fst p) (snd p) w) presses w).
Proof.
  intros Hs Hn.
  assert (H : Aux.inStep w /\ Aux.nonNegative w) by done. clear Hs Hn.
  revert w H. induction presses as [|p presses IH]; intros w H; [apply H|].
  cbn [fold_left]. apply IH. by apply pressStock_invariant.
Qed.

(** C1 as stated fails on [handleUpdateStock]: with the count of O+ at
    0, the delta -1 is not rejected; the store and the inventory shown
    then hold -1 and the toast reports a success. *)
Lemma handleUpdateStock_below_zero :
  let c := stockOf Samples.cityHospital "O+" in
  let w' := handleUpdateStock "O+" (-1) Samples.world in
  0 <= c /\ c + -1 < 0 /\
  w' <> Samples.world /\
  Aux.countOf (inventories (db w') !! "h1") "O+" = Some (-1) /\
  Aux.countOf (inventory (ui w')) "O+" = Some (-1) /\
  toasts (ui w') = [toast_success "Stock updated: -1 O+"].
Proof.
  vm_compute. repeat split; try discriminate; try congruence.
Qed.

End StockUpdates.

(** ** Appointment cards and handlers *)

Section AppointmentHandlers.
Import Firestore HospitalDashboard.

(** C2, as the code has it: the card of a completed or no-show
    appointment renders no action row, so no event on it reaches a
    handler and the state stays as it is. *)
Theorem terminal_card_offers_no_action (appt : Appointment) (ev : CardEvent)
    (st : string * World) :
  Spec.terminal appt ->
  actions (AppointmentCard appt) = None /\ cardEvent appt ev st = st.
Proof.
  intros Ht.
  assert (H : actions (AppointmentCard appt) = None).
  { unfold AppointmentCard. cbn [actions]. destruct Ht as [-> | ->]; reflexivity. }
  split; [exact H|]. unfold cardEvent. by rewrite H.
Qed.

Lemma terminal_card_offers_no_action_witness :
  cardEvent Samples.john (ClickComplete true) (initialSelectedType, Samples.world)
  = (initialSelectedType, Samples.world).
Proof.
  apply (terminal_card_offers_no_action Samples.john (ClickComplete true)
           (initialSelectedType, Samples.world)).
  left. reflexivity.
Defined.

(** The card of a scheduled appointment renders the action row with the
    eight labels. *)
Lemma scheduled_card_offers_actions (appt : Appointment) :
  status appt = scheduled -> actions (AppointmentCard appt) = Some bloodTypes.
Proof. intros H. unfold AppointmentCard. cbn [actions]. by rewrite H. Qed.

(** C2 as stated fails on the handlers: called on a completed
    appointment, [handleCompleteAppointment] records a donation and
    raises the count of A+ from 7 to 8, and [handleNoShow] turns the
    completed appointment into a no-show; both report a success. *)
Lemma handlers_accept_terminal_appointment :
  Spec.terminal Samples.john /\
  (let w' := handleCompleteAppointment Samples.john "A+" true Samples.world in
   stockOf Samples.cityHospital "A+" = 7 /\
   Aux.countOf (inventories (db w') !! "h1") "A+" = Some 8 /\
   length (donations (db w')) = 1%nat /\
   toasts (ui w') = [toast_success "Donation recorded successfully!"]) /\
  (let w' := handleNoShow (id Samples.john) true Samples.world in
   Aux.statusIn (db Samples.world) "a2" = Some completed /\
   Aux.statusIn (db w') "a2" = Some no_show /\
   toasts (ui w') = [toast_success "Marked as No-Show"]).
Proof.
  vm_compute. repeat split; try discriminate; try congruence. by left.
Qed.

(** [handleCompleteAppointment] reads the id and the donor of the
    appointment and nothing else: it cannot tell a scheduled appointment
    from a completed one ([handleNoShow] is only given the id). *)
Lemma handleCompleteAppointment_ignores_status (appt appt' : Appointment)
    (confirmedBloodType : string) (answer : bool) (w : World) :
  id appt = id appt' -> donorId appt = donorId appt' ->
  handleCompleteAppointment appt confirmedBloodType answer w
  = handleCompleteAppointment appt' confirmedBloodType answer w.
Proof. intros Hid Hdonor. unfold handleCompleteAppointment. by rewrite Hid, Hdonor. Qed.

Lemma selectedType_invariant (appt : Appointment) (ev : CardEvent)
    (st : string * World) :
  In (fst st) bloodTypes -> In (fst (cardEvent appt ev st)) bloodTypes.
Proof.
  intros H. unfold cardEvent.
  destruct (actions (AppointmentCard appt)) as [options|] eqn:E; [|done].
  assert (options = bloodTypes) as ->.
  { unfold AppointmentCard in E. cbn [actions] in E.
    destruct (_ && _); congruence. }
  destruct ev; cbn [fst]; try done.
  destruct (existsb _ _) eqn:Ex; [|done]. cbn [fst].
  apply existsb_exists in Ex as (t & Ht & Heq). apply String.eqb_eq in Heq. by subst.
Qed.

(** C6, as the code has it: [handleCompleteAppointment] rejects the
    empty blood type with an error toast before anything is asked or
    sent (a toast touches neither the store nor the data shown), and
    the type a card hands over is always one of the eight labels: it
    starts at A+ and only changes to an option of the select. *)
Theorem complete_needs_selected_type :
  (forall (appt : Appointment) (answer : bool) (w : World),
     handleCompleteAppointment appt EmptyString answer w
     = toast (toast_error "Please select the collected blood type.") w) /\
  (forall (t : Toast) (w : World),
     db (toast t w) = db w /\
     appointments (ui (toast t w)) = appointments (ui w) /\
     inventory (ui (toast t w)) = inventory (ui w)) /\
  (forall (appt : Appointment) (events : list CardEvent) (w : World),
     In (fst (fold_left (fun st ev => cardEvent appt ev st) events
                (initialSelectedType, w))) bloodTypes).
Proof.
  split; [|split].
  - reflexivity.
  - intros t w. repeat split.
  - intros appt events w.
    assert (H : forall st, In (fst st) bloodTypes ->
              In (fst (fold_left (fun st ev => cardEvent appt ev st) events st))
                bloodTypes).
    { induction events as [|ev events IH]; intros st Hst; [done|].
      cbn [fold_left]. apply IH. by apply selectedType_invariant. }
    apply H. cbn. auto.
Qed.

(** C6 as stated fails on the handler: a confirmed type outside the
    eight labels is not rejected; the scheduled appointment becomes
    completed and a count for the unknown label appears. *)
Lemma handleComplete_accepts_unknown_type :
  let w' := handleCompleteAppointment Samples.jane "XYZ" true Samples.world in
  status Samples.jane = scheduled /\
  ~ In "XYZ" bloodTypes /\
  Aux.statusIn (db w') "a1" = Some completed /\
  Aux.countOf (inventories (db w') !! "h1") "XYZ" = Some 1 /\
  toasts (ui w') = [toast_success "Donation recorded successfully!"].
Proof.
  vm_compute. repeat split; try discriminate; try congruence.
  intros H. repeat (destruct H as [H|H]; [discriminate H|]). exact H.
Qed.

(** Completing a scheduled appointment with the label O+: the
    appointment is completed and the count of O+ goes up by one. *)
Lemma complete_scheduled_example :
  let w' := handleCompleteAppointment Samples.jane "O+" true Samples.world in
  Aux.statusIn (db w') "a1" = Some completed /\
  Aux.countOf (inventories (db Samples.world) !! "h1") "O+" = Some 0 /\
  Aux.countOf (inventories (db w') !! "h1") "O+" = Some 1 /\
  Aux.countOf (inventory (ui w')) "O+" = Some 1 /\
  map status (appointments (ui w')) = [completed; completed; no_show; scheduled].
Proof. vm_compute. repeat split. Qed.

End AppointmentHandlers.

(** ** Strings *)

Section StringFacts.
Import JS.

Lemma append_nil_l (s : string) : EmptyString +:+ s = s.
Proof. reflexivity. Qed.

Lemma append_cons (c : Ascii.ascii) (s t : string) :
  String c s +:+ t = String c (s +:+ t).
Proof. reflexivity. Qed.

Lemma startsWith_spec (s t : string) :
  startsWith s t = true <-> exists post, s = t +:+ post.
Proof.
  revert s. induction t as [|b t IH]; intros s.
  - destruct s; simpl; split; eauto.
  - destruct s as [|a s]; simpl.
    + split; [discriminate | intros [post H]; discriminate].
    + rewrite andb_true_iff, Ascii.eqb_eq, IH. split.
      * intros [-> [post ->]]. exists post. reflexivity.
      * intros [post H]. rewrite append_cons in H. injection H as -> ->. eauto.
Qed.

Lemma includes_spec (s t : string) :
  includes s t = true <-> exists pre post, s = pre +:+ t +:+ post.
Proof.
  induction s as [|a s IH].
  - cbn [includes]. rewrite orb_false_r, startsWith_spec. split.
    + intros [post H]. exists EmptyString, post. exact H.
    + intros [pre [post H]]. destruct pre; [eauto | discriminate].
  - cbn [includes]. rewrite orb_true_iff, startsWith_spec, IH. split.
    + intros [[post H] | [pre [post H]]].
      * exists EmptyString, post. exact H.
      * exists (String a pre), post. rewrite append_cons. by f_equal.
    + intros [[|c pre] [post H]].
      * left. eauto.
      * right. rewrite append_cons in H. injection H as -> ->. eauto.
Qed.

Lemma toLowerCase_app (a b : string) :
  toLowerCase (a +:+ b) = toLowerCase a +:+ toLowerCase b.
Proof.
  induction a as [|c a IH]; [reflexivity|].
  rewrite append_cons. cbn [toLowerCase]. rewrite append_cons. by f_equal.
Qed.

Lemma toLowerCase_split (s a b : string) :
  toLowerCase s = a +:+ b ->
  exists a' b', s = a' +:+ b' /\ toLowerCase a' = a /\ toLowerCase b' = b.
Proof.
  revert s. induction a as [|c a IH]; intros s H.
  - exists EmptyString, s. auto.
  - destruct s as [|d s]; [discriminate|].
    cbn [toLowerCase] in H. rewrite append_cons in H. injection H as Hc H.
    destruct (IH s H) as (a' & b' & -> & Ha & Hb).
    exists (String d a'), b'. cbn [toLowerCase]. rewrite Hc, Ha. auto.
Qed.

Lemma includes_ignoring_case (name term : string) :
  includes (toLowerCase name) (toLowerCase term) = true
  <-> Spec.containsIgnoringCase name term.
Proof.
  rewrite includes_spec. unfold Spec.containsIgnoringCase. split.
  - intros (pre & post & H).
    apply toLowerCase_split in H as (pre' & rest & -> & Hpre & H).
    apply toLowerCase_split in H as (mid & post' & -> & Hmid & Hpost).
    eauto.
  - intros (pre & mid & post & -> & Hmid).
    exists (toLowerCase pre), (toLowerCase post).
    by rewrite !toLowerCase_app, Hmid.
Qed.

Lemma includes_empty (s : string) : includes s EmptyString = true.
Proof. destruct s; reflexivity. Qed.

End StringFacts.

(** ** Case *)

Section CaseFacts.
Import JS.

Lemma N_of_ascii_inj (a b : Ascii.ascii) :
  Ascii.N_of_ascii a = Ascii.N_of_ascii b -> a = b.
Proof.
  intros H. rewrite <- (Ascii.ascii_N_embedding a), <- (Ascii.ascii_N_embedding b).
  by rewrite H.
Qed.

Lemma N_of_toLowerChar (c : Ascii.ascii) :
  Ascii.N_of_ascii (toLowerChar c)
  = (let n := Ascii.N_of_ascii c in
     if (65 <=? n) && (n <=? 90) then n + 32 else n)%N.
Proof.
  unfold toLowerChar. cbn zeta.
  destruct ((65 <=? Ascii.N_of_ascii c) && (Ascii.N_of_ascii c <=? 90))%N eqn:E;
    [|reflexivity].
  apply Ascii.N_ascii_embedding.
  apply andb_true_iff in E as [_ E%N.leb_le]. lia.
Qed.




End CaseFacts.

(** ** Code units *)

Section CodeUnits.
Import JS.

(** Below 128 the simple mapping moves A..Z and nothing else. *)
Lemma lowerUnit_ascii (c : Ascii.ascii) :
  (Ascii.N_of_ascii c < 128)%N ->
  Unicode.lowerUnit (Ascii.N_of_ascii c) = Ascii.N_of_ascii (toLowerChar c).
Proof.
  intros Hc. rewrite N_of_toLowerChar. cbn zeta.
  unfold Unicode.lowerUnit, Unicode.isUpperLatin, Unicode.isUpperGreek.
  destruct (N.leb_spec 65 (Ascii.N_of_ascii c)), (N.leb_spec (Ascii.N_of_ascii c) 90),
    (N.leb_spec 192 (Ascii.N_of_ascii c)), (N.leb_spec 216 (Ascii.N_of_ascii c)),
    (N.leb_spec 913 (Ascii.N_of_ascii c)), (N.leb_spec 931 (Ascii.N_of_ascii c));
    cbn [andb orb]; try reflexivity; lia.
Qed.

Lemma lowerFrom_units (before : list N) (s : string) :
  CaseSpec.isAscii s = true ->
  Unicode.lowerFrom before (Unicode.units s) = Unicode.units (toLowerCase s).
Proof.
  revert before. induction s as [|c s IH]; intros before Hs; [reflexivity|].
  cbn [CaseSpec.isAscii] in Hs. apply andb_true_iff in Hs as [Hc%N.ltb_lt Hs].
  cbn [Unicode.units Unicode.lowerFrom toLowerCase].
  destruct (N.eqb_spec (Ascii.N_of_ascii c) Unicode.capitalSigma) as [E|_].
  { unfold Unicode.capitalSigma in E. lia. }
  rewrite lowerUnit_ascii, IH by done. reflexivity.
Qed.

Lemma toLowerCase_units (s : string) :
  CaseSpec.isAscii s = true ->
  Unicode.toLowerCase (Unicode.units s) = Unicode.units (toLowerCase s).
Proof. apply lowerFrom_units. Qed.

Lemma unit_eqb (a b : Ascii.ascii) :
  (Ascii.N_of_ascii a =? Ascii.N_of_ascii b)%N = Ascii.eqb a b.
Proof.
  destruct (Ascii.eqb_spec a b) as [->|Hne].
  - apply N.eqb_refl.
  - apply N.eqb_neq. intros H. by apply Hne, N_of_ascii_inj.
Qed.

Lemma startsWith_units (s t : string) :
  Unicode.startsWith (Unicode.units s) (Unicode.units t) = startsWith s t.
Proof.
  revert s. induction t as [|b t IH]; intros [|a s]; try reflexivity.
  cbn [Unicode.units Unicode.startsWith startsWith]. by rewrite unit_eqb, IH.
Qed.

Lemma includes_units (s t : string) :
  Unicode.includes (Unicode.units s) (Unicode.units t) = includes s t.
Proof.
  induction s as [|a s IH].
  - cbn [Unicode.units Unicode.includes includes].
    by rewrite <- (startsWith_units EmptyString t).
  - cbn [Unicode.units Unicode.includes includes].
    by rewrite <- IH, <- (startsWith_units (String a s) t).
Qed.

(** On strings written in ASCII the test on code units and the test
    on 8-bit strings are the same test. *)
Lemma nameMatches_units (name search : string) :
  CaseSpec.isAscii name = true -> CaseSpec.isAscii search = true ->
  Unicode.nameMatches (Unicode.units name) (Unicode.units search)
  = includes (toLowerCase name) (toLowerCase search).
Proof.
  intros Hn Hs. unfold Unicode.nameMatches.
  by rewrite !toLowerCase_units, includes_units.
Qed.

End CodeUnits.

(** ** The stable sort *)

Section SortFacts.
Import JS.
Context {A : Type} (le : A -> A -> bool).

Lemma sort_insert_Permutation (x : A) (l : list A) :
  Permutation (sort_insert le x l) (x :: l).
Proof.
  induction l as [|y l IH]; cbn [sort_insert]; [reflexivity|].
  destruct (le x y); [reflexivity|].
  rewrite IH. apply perm_swap.
Qed.

Lemma sort_Permutation (l : list A) : Permutation (sort le l) l.
Proof.
  induction l as [|x l IH]; [reflexivity|].
  unfold sort in *. cbn [foldr]. rewrite sort_insert_Permutation. by constructor.
Qed.

Lemma sort_In (l : list A) (x : A) : In x (sort le l) <-> In x l.
Proof.
  split; apply Permutation_in; [|symmetry]; apply sort_Permutation.
Qed.

(** Insertion keeps a list sorted for [R] as soon as the comparator
    agrees with [R] on the elements at hand. *)
Lemma sort_insert_StronglySorted (R : A -> A -> Prop) (x : A) (l : list A) :
  (forall y, In y l -> le x y = true -> R x y) ->
  (forall y, In y l -> le x y = false -> R y x) ->
  (forall y z, In y l -> In z l -> R x y -> R y z -> R x z) ->
  StronglySorted R l -> StronglySorted R (sort_insert le x l).
Proof.
  intros Hle Hgt Htr Hs. induction Hs as [|y l Hs IH Hy]; cbn [sort_insert].
  - repeat constructor.
  - destruct (le x y) eqn:E.
    + apply SSorted_cons; [apply SSorted_cons; assumption|].
      assert (Rxy : R x y) by (apply Hle; [by left | done]).
      constructor; [done|].
      rewrite List.Forall_forall in Hy |- *. intros z Hz.
      apply (Htr y z); [by left | by right | done | by apply Hy].
    + constructor.
      * apply IH; intros; [apply Hle | apply Hgt | apply (Htr y0 z)];
          try done; by right.
      * assert (Hall : Forall (R y) (x :: l)).
        { constructor; [|done]. apply Hgt; [by left | done]. }
        revert Hall. apply Permutation_Forall.
        symmetry. apply sort_insert_Permutation.
Qed.

Lemma sort_StronglySorted (R : A -> A -> Prop) (l : list A) :
  (forall x y, In x l -> In y l -> le x y = true -> R x y) ->
  (forall x y, In x l -> In y l -> le x y = false -> R y x) ->
  (forall x y z, In x l -> In y l -> In z l -> R x y -> R y z -> R x z) ->
  StronglySorted R (sort le l).
Proof.
  induction l as [|x l IH]; intros Hle Hgt Htr; [constructor|].
  unfold sort in *. cbn [foldr].
  apply sort_insert_StronglySorted.
  - intros y Hy. apply Hle; [by left | right; by apply sort_In].
  - intros y Hy. apply Hgt; [by left | right; by apply sort_In].
  - intros y z Hy Hz. apply Htr; [by left | right; by apply sort_In ..].
  - apply IH; intros; [eapply Hle | eapply Hgt | eapply (Htr x0 y z)];
      try done; by right.
Qed.

End SortFacts.

Section StringOrder.

Lemma leb_trans (a b c : string) :
  String.leb a b = true -> String.leb b c = true -> String.leb a c = true.
Proof.
  intros H1%Is_true_true H2%Is_true_true. apply Is_true_true.
  exact (transitivity (R := String.le) H1 H2).
Qed.

Lemma leb_false_flip (a b : string) : String.leb a b = false -> String.leb b a = true.
Proof.
  intros H. destruct (String.leb_total a b) as [E|E]; [congruence | exact E].
Qed.

Lemma ltb_leb_ne (a b : string) :
  String.ltb a b = true <-> String.leb a b = true /\ a <> b.
Proof.
  unfold String.ltb, String.leb. destruct (String.compare a b) eqn:E.
  - apply String.compare_eq_iff in E. split; [discriminate | intros [_ H]; done].
  - split; [|done]. intros _. split; [done|]. intros ->.
    pose proof (String.compare_antisym b b) as H. rewrite E in H. discriminate.
  - split; [discriminate | intros [H _]; discriminate].
Qed.

Lemma sorted_dates_strict (l : list string) :
  List.NoDup l ->
  StronglySorted (fun a b => String.ltb a b = true) (JS.sort JS.defaultCompare l).
Proof.
  intros Hnd.
  assert (Hnd' : List.NoDup (JS.sort JS.defaultCompare l)).
  { eapply Permutation_NoDup; [symmetry; apply sort_Permutation | done]. }
  assert (Hs : StronglySorted (fun a b => String.leb a b = true)
                 (JS.sort JS.defaultCompare l)).
  { apply sort_StronglySorted; unfold JS.defaultCompare.
    - auto.
    - intros x y _ _. apply leb_false_flip.
    - intros x y z _ _ _. apply leb_trans. }
  induction Hs as [|x l' Hs IH Hx]; [constructor|].
  apply List.NoDup_cons_iff in Hnd' as [Hnotin Hnd'].
  constructor; [by apply IH|].
  rewrite List.Forall_forall in Hx |- *. intros y Hy.
  apply ltb_leb_ne. split; [by apply Hx|]. intros ->. done.
Qed.

End StringOrder.

(** ** The donation schedule *)

Section ScheduleSelection.
Import Firestore HospitalDashboard Aux.

Lemma Status_eqb_eq (a b : Status) : Status_eqb a b = true <-> a = b.
Proof. destruct a, b; simpl; split; congruence. Qed.

Lemma filteredAppointments_In (appointments : list Appointment) (view : View)
    (appt : Appointment) :
  In appt (filteredAppointments appointments view)
  <-> In appt appointments /\ Spec.inView view appt.
Proof.
  unfold filteredAppointments. rewrite filter_In.
  apply and_iff_compat_l.
  destruct view; simpl.
  - apply Status_eqb_eq.
  - destruct (status appt); simpl; split; intros; try discriminate; auto;
      destruct H; discriminate.
Qed.

Lemma displayAppointments_In (appointments : list Appointment) (view : View)
    (search : string) (appt : Appointment) :
  In appt (displayAppointments appointments view search)
  <-> In appt appointments /\ Spec.inView view appt
      /\ Spec.containsIgnoringCase (donorName appt) search.
Proof.
  unfold displayAppointments.
  rewrite filter_In, filteredAppointments_In, includes_ignoring_case. tauto.
Qed.

Lemma displayAppointments_empty_term (appointments : list Appointment) (view : View) :
  displayAppointments appointments view EmptyString
  = filteredAppointments appointments view.
Proof.
  unfold displayAppointments.
  induction (filteredAppointments appointments view) as [|a l IH]; [reflexivity|].
  cbn [List.filter]. cbn [JS.toLowerCase]. rewrite includes_empty. by f_equal.
Qed.


Lemma groupStep_lookup (acc : gmap string (list Appointment)) (a : Appointment)
    (d : string) :
  groupStep acc a !! d =
    if String.eqb (date a) d then Some (default [] (acc !! d) ++ [a]) else acc !! d.
Proof.
  unfold groupStep. destruct (String.eqb_spec (date a) d) as [<-|Hne].
  - rewrite lookup_alter_eq. destruct (acc !! date a) eqn:E.
    + by rewrite E.
    + by rewrite lookup_insert_eq.
  - rewrite lookup_alter_ne by done.
    destruct (acc !! date a); [done|]. by rewrite lookup_insert_ne.
Qed.

Lemma fold_groupStep_lookup (l : list Appointment)
    (acc : gmap string (list Appointment)) (d : string) :
  fold_left groupStep l acc !! d =
    match acc !! d, onDate d l with
    | None, [] => None
    | o, l' => Some (default [] o ++ l')
    end.
Proof.
  revert acc. induction l as [|a l IH]; intros acc; cbn [fold_left onDate List.filter].
  - destruct (acc !! d); [by rewrite app_nil_r | done].
  - rewrite IH, groupStep_lookup. fold (onDate d l).
    destruct (String.eqb (date a) d).
    + destruct (acc !! d); cbn; rewrite <- ?List.app_assoc; reflexivity.
    + destruct (acc !! d); done.
Qed.

Lemma grouped_lookup (display : list Appointment) (d : string) :
  grouped display !! d =
    match onDate d display with
    | [] => None
    | l => Some l
    end.
Proof.
  unfold grouped. rewrite fold_groupStep_lookup, lookup_empty.
  destruct (onDate d display); reflexivity.
Qed.

Lemma onDate_nonempty (d : string) (l : list Appointment) :
  onDate d l <> [] <-> exists a, In a l /\ date a = d.
Proof.
  unfold onDate. split.
  - destruct (List.filter _ l) as [|a l'] eqn:E; [done|]. intros _.
    assert (H : In a (List.filter (fun a => String.eqb (date a) d) l))
      by (rewrite E; by left).
    apply filter_In in H as [H1 H2]. apply String.eqb_eq in H2. eauto.
  - intros (a & Ha & Hd) E.
    assert (H : In a (List.filter (fun a => String.eqb (date a) d) l)).
    { apply filter_In. split; [done|]. by apply String.eqb_eq. }
    rewrite E in H. destruct H.
Qed.

Lemma keys_In (m : gmap string (list Appointment)) (d : string) :
  In d (map fst (map_to_list m)) <-> is_Some (m !! d).
Proof.
  rewrite in_map_iff. split.
  - intros ([d' l] & <- & H). apply list_elem_of_In, elem_of_map_to_list in H. eauto.
  - intros [l H]. exists (d, l). split; [done|].
    by apply list_elem_of_In, elem_of_map_to_list.
Qed.

Lemma keys_NoDup (m : gmap string (list Appointment)) :
  List.NoDup (map fst (map_to_list m)).
Proof. apply NoDup_ListNoDup. apply (NoDup_fst_map_to_list m). Qed.

Lemma sortedDates_In (display : list Appointment) (d : string) :
  In d (sortedDates display) <-> exists a, In a display /\ date a = d.
Proof.
  unfold sortedDates. rewrite sort_In, keys_In, grouped_lookup, <- onDate_nonempty.
  destruct (onDate d display); split; intros H; try done; eauto.
Qed.

Lemma sorted_NoDup (display : list Appointment) : List.NoDup (sortedDates display).
Proof.
  unfold sortedDates.
  eapply Permutation_NoDup; [symmetry; apply sort_Permutation | apply keys_NoDup].
Qed.

Lemma sortedDates_ascending (display : list Appointment) :
  StronglySorted (fun a b => String.ltb a b = true) (sortedDates display).
Proof. apply sorted_dates_strict, keys_NoDup. Qed.

Lemma grouped_default (display : list Appointment) (d : string) :
  default [] (grouped display !! d) = onDate d display.
Proof. rewrite grouped_lookup. by destruct (onDate d display). Qed.

Lemma filter_split_Permutation {A : Type} (f : A -> bool) (l : list A) :
  Permutation l (List.filter f l ++ List.filter (fun a => negb (f a)) l).
Proof.
  induction l as [|a l IH]; [reflexivity|]. cbn [List.filter].
  destruct (f a); cbn [negb app].
  - by constructor.
  - by apply Permutation_cons_app.
Qed.

Lemma onDate_other (d d' : string) (l : list Appointment) :
  d' <> d ->
  onDate d' (List.filter (fun a => negb (String.eqb (date a) d)) l) = onDate d' l.
Proof.
  intros Hne. unfold onDate. induction l as [|a l IH]; [reflexivity|].
  cbn [List.filter]. destruct (String.eqb_spec (date a) d) as [E|E]; cbn [negb List.filter].
  - rewrite IH. destruct (String.eqb_spec (date a) d'); [congruence | done].
  - by rewrite IH.
Qed.

Lemma concat_onDate_Permutation (ds : list string) (l : list Appointment) :
  List.NoDup ds -> (forall a, In a l -> In (date a) ds) ->
  Permutation (concat (map (fun d => onDate d l) ds)) l.
Proof.
  intros Hnd. revert l. induction Hnd as [|d ds Hnotin Hnd IH]; intros l Hcov.
  - destruct l as [|a l]; [reflexivity|]. destruct (Hcov a); by left.
  - cbn [map concat].
    set (rest := List.filter (fun a => negb (String.eqb (date a) d)) l).
    rewrite (filter_split_Permutation (fun a => String.eqb (date a) d) l) at 2.
    apply Permutation_app_head. fold rest.
    rewrite <- (IH rest).
    + apply Permutation_refl'. f_equal. apply map_ext_in.
      intros d' Hd'. symmetry. apply onDate_other. intros ->. done.
    + intros a [Ha Hd]%filter_In. destruct (Hcov a Ha) as [E|E]; [|done].
      rewrite E, String.eqb_refl in Hd. discriminate.
Qed.

Lemma schedule_sections (appointments : list Appointment) (view : View)
    (search : string) :
  let display := displayAppointments appointments view search in
  DonationSchedule appointments view search
  = map (fun d => (d, onDate d display)) (sortedDates display).
Proof.
  intros display. unfold DonationSchedule. fold display.
  apply map_ext. intros d. by rewrite grouped_default.
Qed.

Lemma schedule_flatten (appointments : list Appointment) (view : View)
    (search : string) :
  Permutation (concat (map snd (DonationSchedule appointments view search)))
    (displayAppointments appointments view search).
Proof.
  rewrite schedule_sections, map_map. cbn [snd].
  apply concat_onDate_Permutation; [apply sorted_NoDup|].
  intros a Ha. apply sortedDates_In. eauto.
Qed.

Lemma filter_ext_In {A : Type} (f g : A -> bool) (l : list A) :
  (forall a, In a l -> f a = g a) -> List.filter f l = List.filter g l.
Proof.
  induction l as [|a l IH]; intros H; [reflexivity|]. cbn [List.filter].
  rewrite (H a) by (by left). rewrite IH; [reflexivity|].
  intros b Hb. apply H. by right.
Qed.




(** C5: the sections of the schedule carry strictly ascending dates
    (code-unit order of the date strings); every selected appointment
    has the section of its date; the section of a date holds exactly
    the selected appointments of that date, in the order of the list;
    and together the sections hold the selected appointments, each as
    often as it was selected. *)
Theorem schedule_grouped_by_date (appointments : list Appointment) (view : View)
    (search : string) :
  let display := displayAppointments appointments view search in
  let sections := DonationSchedule appointments view search in
  StronglySorted (fun a b => String.ltb a b = true) (map fst sections) /\
  (forall appt, In appt display -> In (date appt) (map fst sections)) /\
  (forall d l, In (d, l) sections ->
     l <> [] /\ l = List.filter (fun a => String.eqb (date a) d) display) /\
  Permutation (concat (map snd sections)) display.
Proof.
  intros display sections.
  assert (Hfst : map fst sections = sortedDates display).
  { unfold sections. rewrite schedule_sections. fold display.
    rewrite map_map. cbn [fst]. apply map_id. }
  split; [|split; [|split]].
  - rewrite Hfst. apply sortedDates_ascending.
  - intros appt H. rewrite Hfst. apply sortedDates_In. eauto.
  - intros d l H. unfold sections in H. rewrite schedule_sections in H. fold display in H.
    apply in_map_iff in H as (d' & [= <- <-] & Hd).
    apply sortedDates_In, onDate_nonempty in Hd. done.
  - apply schedule_flatten.
Qed.

(** The schedule of the sample appointments: the active view, and the
    past view searched for [jane]. *)
Lemma schedule_examples :
  DonationSchedule (appointments (ui Samples.world)) active EmptyString
  = [("2024-06-01", [Samples.jim]); ("2024-06-02", [Samples.jane])] /\
  DonationSchedule (appointments (ui Samples.world)) past "jane"
  = [("2024-06-01", [Samples.janet])].
Proof. split; vm_compute; reflexivity. Qed.

End ScheduleSelection.

(** ** Calendar dates *)

Section CalendarFacts.
Import JSDate Aux.

Lemma daysFromCivil_split (y m d : Z) :
  1 <= m <= 12 ->
  daysFromCivil y m d = yearBase (if m <=? 2 then y - 1 else y) + monthOffset m + d - 1.
Proof.
  intros Hm. unfold daysFromCivil, yearBase.
  assert (H : (153 * (if m <=? 2 then m + 9 else m - 3) + 2) / 5 = monthOffset m).
  { assert (Hc : m = 1 \/ m = 2 \/ m = 3 \/ m = 4 \/ m = 5 \/ m = 6 \/ m = 7 \/ m = 8
                 \/ m = 9 \/ m = 10 \/ m = 11 \/ m = 12) by lia.
    repeat (destruct Hc as [->|Hc]; [reflexivity|]). subst. reflexivity. }
  rewrite H. lia.
Qed.

Lemma yearBase_succ (y : Z) :
  yearBase y = yearBase (y - 1) + 365 + (if isLeapYear y then 1 else 0).
Proof.
  unfold yearBase, isLeapYear.
  destruct (Z.eqb_spec (y mod 4) 0), (Z.eqb_spec (y mod 100) 0),
    (Z.eqb_spec (y mod 400) 0); cbn [negb andb orb];
    Z.div_mod_to_equations; lia.
Qed.

Lemma yearBase_mono (a b : Z) : a < b -> yearBase a + 365 <= yearBase b.
Proof.
  intros H. unfold yearBase. Z.div_mod_to_equations. lia.
Qed.

Lemma daysInMonth_offsets (y m : Z) :
  1 <= m <= 12 ->
  daysInMonth y m <= 31 /\
  (m = 2 -> daysInMonth y m = 28 + (if isLeapYear y then 1 else 0)) /\
  (m <> 2 -> m <> 12 -> monthOffset m + daysInMonth y m = monthOffset (m + 1)).
Proof.
  intros Hm.
  assert (Hc : m = 1 \/ m = 2 \/ m = 3 \/ m = 4 \/ m = 5 \/ m = 6 \/ m = 7 \/ m = 8
               \/ m = 9 \/ m = 10 \/ m = 11 \/ m = 12) by lia.
  unfold daysInMonth.
  repeat (destruct Hc as [->|Hc];
          [cbn; destruct (isLeapYear y); repeat split; intros; try reflexivity; lia|]).
  subst. cbn. repeat split; intros; try reflexivity; lia.
Qed.

Lemma monthOffset_mono (m1 m2 : Z) :
  3 <= m1 -> m1 < m2 <= 12 -> monthOffset (m1 + 1) <= monthOffset m2.
Proof.
  intros H1 H2.
  assert (Hc : m1 = 3 \/ m1 = 4 \/ m1 = 5 \/ m1 = 6 \/ m1 = 7 \/ m1 = 8
               \/ m1 = 9 \/ m1 = 10 \/ m1 = 11) by lia.
  assert (Hd : m2 = 4 \/ m2 = 5 \/ m2 = 6 \/ m2 = 7 \/ m2 = 8
               \/ m2 = 9 \/ m2 = 10 \/ m2 = 11 \/ m2 = 12) by lia.
  repeat (destruct Hc as [->|Hc]);
    repeat (destruct Hd as [->|Hd]); subst; first [lia | vm_compute; congruence].
Qed.

Lemma monthOffset_bounds (m : Z) : 1 <= m <= 12 ->
  0 <= monthOffset m <= 337 /\ (3 <= m -> monthOffset m <= 275) /\
  (m = 1 -> monthOffset m = 306) /\ (m = 2 -> monthOffset m = 337).
Proof.
  intros Hm.
  assert (Hc : m = 1 \/ m = 2 \/ m = 3 \/ m = 4 \/ m = 5 \/ m = 6 \/ m = 7 \/ m = 8
               \/ m = 9 \/ m = 10 \/ m = 11 \/ m = 12) by lia.
  unfold monthOffset.
  repeat (destruct Hc as [->|Hc]); subst; cbn; lia.
Qed.

Lemma daysFromCivil_mono (y1 m1 d1 y2 m2 d2 : Z) :
  validFields y1 m1 d1 -> validFields y2 m2 d2 ->
  dateKey y1 m1 d1 < dateKey y2 m2 d2 ->
  daysFromCivil y1 m1 d1 < daysFromCivil y2 m2 d2.
Proof.
  intros [Hm1 Hd1] [Hm2 Hd2] Hk. unfold dateKey in Hk.
  rewrite !daysFromCivil_split by done.
  pose proof (daysInMonth_offsets y1 m1 Hm1) as (Hle1 & Hfeb1 & Hoff1).
  pose proof (daysInMonth_offsets y2 m2 Hm2) as (Hle2 & Hfeb2 & Hoff2).
  pose proof (monthOffset_bounds m1 Hm1) as (Hb1 & Hb1' & Hjan1 & Hfb1).
  pose proof (monthOffset_bounds m2 Hm2) as (Hb2 & Hb2' & Hjan2 & Hfb2).
  pose proof (yearBase_succ y1) as Hs1.
  pose proof (yearBase_succ y2) as Hs2.
  destruct (Z.lt_trichotomy y1 y2) as [Hy|[Hy|Hy]]; [| |lia].
  - (* an earlier year *)
    assert (Hend : yearBase (if m1 <=? 2 then y1 - 1 else y1) + monthOffset m1 + d1 - 1
                   <= yearBase y1 + 305).
    { destruct (Z.leb_spec m1 2).
      - destruct (isLeapYear y1); lia.
      - destruct (Z.eq_dec m1 12) as [->|].
        + cbn in *. lia.
        + pose proof (monthOffset_mono m1 12). specialize (Hoff1 ltac:(lia) ltac:(lia)).
          cbn in H0. lia. }
    assert (Hstart : yearBase (y2 - 1) + 306
                     <= yearBase (if m2 <=? 2 then y2 - 1 else y2) + monthOffset m2 + d2 - 1).
    { destruct (Z.leb_spec m2 2).
      - lia.
      - destruct (isLeapYear y2); lia. }
    assert (Hmid : yearBase y1 <= yearBase (y2 - 1)).
    { destruct (Z.eq_dec y1 (y2 - 1)) as [->|]; [lia|].
      pose proof (yearBase_mono y1 (y2 - 1)). lia. }
    lia.
  - (* the same year *)
    subst y2. assert (Hmd : m1 < m2 \/ (m1 = m2 /\ d1 < d2)) by lia.
    destruct Hmd as [Hlt|[-> Hlt]]; [|lia].
    destruct (Z.leb_spec m1 2), (Z.leb_spec m2 2).
    + lia.
    + destruct (isLeapYear y1); lia.
    + lia.
    + pose proof (monthOffset_mono m1 m2). specialize (Hoff1 ltac:(lia) ltac:(lia)). lia.
Qed.
End CalendarFacts.

Section IsoStrings.
Import JSDate Aux.

Lemma digit_spec (c : Ascii.ascii) (v : Z) :
  digit c = Some v -> 0 <= v <= 9 /\ Ascii.N_of_ascii c = Z.to_N (v + 48).
Proof.
  unfold digit. intros H.
  destruct (N.leb_spec 48 (Ascii.N_of_ascii c)); [|discriminate].
  destruct (N.leb_spec (Ascii.N_of_ascii c) 57); [|discriminate].
  cbn in H. injection H as <-. lia.
Qed.

Lemma digit_compare (c1 c2 : Ascii.ascii) (v1 v2 : Z) :
  digit c1 = Some v1 -> digit c2 = Some v2 ->
  Ascii.compare c1 c2 = (v1 ?= v2).
Proof.
  intros [H1 E1]%digit_spec [H2 E2]%digit_spec.
  unfold Ascii.compare. rewrite E1, E2.
  rewrite Z2N.inj_compare by lia.
  destruct (Z.compare_spec v1 v2) as [->|H|H].
  - apply Z.compare_refl.
  - apply Z.compare_lt_iff. lia.
  - apply Z.compare_gt_iff. lia.
Qed.

Lemma fields_compare (s1 s2 : string) (y1 m1 d1 y2 m2 d2 : Z) :
  fields s1 = Some (y1, m1, d1) -> fields s2 = Some (y2, m2, d2) ->
  String.compare s1 s2 = (dateKey y1 m1 d1 ?= dateKey y2 m2 d2).
Proof.
  unfold fields. intros H1 H2.
  repeat (match type of H1 with
          | match ?s with EmptyString => _ | String _ _ => _ end = _ =>
              destruct s; try discriminate H1
          end).
  repeat (match type of H2 with
          | match ?s with EmptyString => _ | String _ _ => _ end = _ =>
              destruct s; try discriminate H2
          end).
  repeat (match type of H1 with
          | (if ?b then _ else _) = _ => destruct b eqn:?; try discriminate H1
          | match digit ?c with Some _ => _ | None => _ end = _ =>
              destruct (digit c) eqn:?; try discriminate H1
          end).
  repeat (match type of H2 with
          | (if ?b then _ else _) = _ => destruct b eqn:?; try discriminate H2
          | match digit ?c with Some _ => _ | None => _ end = _ =>
              destruct (digit c) eqn:?; try discriminate H2
          end).
  injection H1 as <- <- <-. injection H2 as <- <- <-.
  repeat match goal with
         | H : _ && _ = true |- _ => apply andb_true_iff in H as [? ?]
         | H : Ascii.eqb _ dash = true |- _ => apply Ascii.eqb_eq in H; subst
         end.
  cbn [String.compare].
  repeat match goal with
         | H1 : digit ?c1 = Some ?v1, H2 : digit ?c2 = Some ?v2
           |- context [Ascii.compare ?c1 ?c2] =>
             rewrite (digit_compare c1 c2 v1 v2 H1 H2)
         end.
  replace (Ascii.compare dash dash) with Eq by reflexivity.
  repeat match goal with
         | H : digit _ = Some _ |- _ => apply digit_spec in H as [? _]
         end.
  unfold dateKey. symmetry.
  repeat match goal with
         | |- context [match (?a ?= ?b) with _ => _ end] =>
             destruct (Z.compare_spec a b); subst
         end;
    first [ apply Z.compare_eq_iff; lia
          | apply Z.compare_lt_iff; lia
          | apply Z.compare_gt_iff; lia ].
Qed.

End IsoStrings.

Section DateOrder.
Import JSDate Aux.

Lemma getTime_fields (s : string) (t : Z) :
  getTime s = Some t ->
  exists y m d, fields s = Some (y, m, d) /\ validFields y m d
                /\ t = daysFromCivil y m d * msPerDay.
Proof.
  unfold getTime. destruct (fields s) as [[[y m] d]|]; [|discriminate].
  destruct (_ && _) eqn:E; [|discriminate]. intros [= <-].
  exists y, m, d. repeat split; try reflexivity;
    repeat (apply andb_true_iff in E as [E ?]); lia.
Qed.

Lemma getTime_order (s1 s2 : string) (t1 t2 : Z) :
  getTime s1 = Some t1 -> getTime s2 = Some t2 ->
  (t1 <= t2 <-> String.leb s1 s2 = true).
Proof.
  intros (y1 & m1 & d1 & F1 & V1 & ->)%getTime_fields
         (y2 & m2 & d2 & F2 & V2 & ->)%getTime_fields.
  unfold String.leb. rewrite (fields_compare _ _ _ _ _ _ _ _ F1 F2).
  unfold msPerDay.
  destruct (Z.compare_spec (dateKey y1 m1 d1) (dateKey y2 m2 d2)) as [E|L|G].
  - assert (Hle1 := daysInMonth_offsets y1 m1 (proj1 V1)).
    assert (Hle2 := daysInMonth_offsets y2 m2 (proj1 V2)).
    destruct V1 as [? ?], V2 as [? ?]. unfold dateKey in E.
    assert (y1 = y2 /\ m1 = m2 /\ d1 = d2) as (-> & -> & ->) by lia.
    split; [done | lia].
  - pose proof (daysFromCivil_mono _ _ _ _ _ _ V1 V2 L). split; [done | lia].
  - pose proof (daysFromCivil_mono _ _ _ _ _ _ V2 V1 G). split; [lia | done].
Qed.

End DateOrder.

Lemma StronglySorted_weaken {A : Type} (R R' : A -> A -> Prop) (l : list A) :
  (forall a b, R a b -> R' a b) -> StronglySorted R l -> StronglySorted R' l.
Proof.
  intros Himp Hs. induction Hs as [|x l Hs IH Hx]; constructor; [done|].
  revert Hx. apply List.Forall_impl. apply Himp.
Qed.

(** ** OrganizerPortal: upcoming camps *)

Section UpcomingFacts.
Import OrganizerPortal.
Context {number : Type}.

Lemma upcoming_Permutation (data : list (@CampStore.DonationCamp number))
    (today : string) :
  Permutation (upcoming data today)
    (List.filter (fun camp => String.leb today (CampStore.date camp)) data).
Proof. apply sort_Permutation. Qed.

Lemma upcoming_In (data : list (@CampStore.DonationCamp number)) (today : string)
    (camp : @CampStore.DonationCamp number) :
  In camp (upcoming data today)
  <-> In camp data /\ String.leb today (CampStore.date camp) = true.
Proof. unfold upcoming. rewrite sort_In, filter_In. done. Qed.

Lemma upcoming_sorted (data : list (@CampStore.DonationCamp number))
    (today : string) :
  (forall camp, In camp data -> String.leb today (CampStore.date camp) = true ->
     Spec.validDate (CampStore.date camp)) ->
  StronglySorted Spec.notLater (upcoming data today).
Proof.
  intros Hvalid. unfold upcoming.
  set (l := List.filter _ data).
  assert (Hv : forall c, In c l -> exists t, JSDate.getTime (CampStore.date c) = Some t).
  { intros c [H1 H2]%filter_In. by apply Hvalid. }
  apply sort_StronglySorted; unfold JS.byDifference, Spec.notLater.
  - intros x y [tx ->]%Hv [ty ->]%Hv H. lia.
  - intros x y [tx ->]%Hv [ty ->]%Hv H. lia.
  - intros x y z [tx ->]%Hv [ty ->]%Hv [tz ->]%Hv. lia.
Qed.

Lemma notLater_leb (a b : @CampStore.DonationCamp number) :
  Spec.notLater a b -> String.leb (CampStore.date a) (CampStore.date b) = true.
Proof.
  unfold Spec.notLater.
  destruct (JSDate.getTime (CampStore.date a)) as [x|] eqn:Ea; [|done].
  destruct (JSDate.getTime (CampStore.date b)) as [y|] eqn:Eb; [|done].
  apply (getTime_order _ _ _ _ Ea Eb).
Qed.

Lemma leb_refl (s : string) : String.leb s s = true.
Proof. apply Is_true_true. exact (reflexivity (R := String.le) s). Qed.

Lemma ltb_not_leb (a b : string) : String.ltb a b = true -> String.leb b a = false.
Proof.
  unfold String.ltb, String.leb. rewrite (String.compare_antisym a b).
  by destruct (String.compare b a).
Qed.

(** C7: a camp is listed exactly when it is in the list and its date
    string is at least [today], so a camp dated [today] is listed and a
    camp dated earlier is not; nothing is listed twice or lost; and,
    when the listed camps carry calendar dates, the list ascends by
    the time values of the dates, which is also the order of the date
    strings. *)
Theorem upcoming_camps_from_today (data : list (@CampStore.DonationCamp number))
    (today : string) :
  (forall camp, In camp (upcoming data today)
     <-> In camp data /\ String.leb today (CampStore.date camp) = true) /\
  (forall camp, In camp data -> CampStore.date camp = today ->
     In camp (upcoming data today)) /\
  (forall camp, String.ltb (CampStore.date camp) today = true ->
     ~ In camp (upcoming data today)) /\
  Permutation (upcoming data today)
    (List.filter (fun camp => String.leb today (CampStore.date camp)) data) /\
  ((forall camp, In camp data -> String.leb today (CampStore.date camp) = true ->
      Spec.validDate (CampStore.date camp)) ->
   StronglySorted Spec.notLater (upcoming data today) /\
   StronglySorted
     (fun a b => String.leb (CampStore.date a) (CampStore.date b) = true)
     (upcoming data today)).
Proof.
  repeat apply conj.
  - intros camp. apply upcoming_In.
  - intros camp Hin E. apply upcoming_In. split; [done|]. rewrite E. apply leb_refl.
  - intros camp Hlt [_ Hle]%upcoming_In. apply ltb_not_leb in Hlt. congruence.
  - apply upcoming_Permutation.
  - intros Hvalid. split; [by apply upcoming_sorted|].
    apply (StronglySorted_weaken Spec.notLater); [|by apply upcoming_sorted].
    intros a b. apply notLater_leb.
Qed.

End UpcomingFacts.

Lemma upcoming_camps_from_today_witness :
  map CampStore.date (OrganizerPortal.upcoming Samples.camps "2024-06-01")
  = ["2024-06-01"; "2024-06-03"] /\
  StronglySorted Spec.notLater (OrganizerPortal.upcoming Samples.camps "2024-06-01").
Proof.
  split; [reflexivity|].
  apply (upcoming_camps_from_today Samples.camps "2024-06-01").
  intros camp Hin _.
  repeat (destruct Hin as [<-|Hin]; [vm_compute; eauto|]). destruct Hin.
Defined.

(** ** LocationPickerMap *)

Section PickerFacts.
Import LocationPickerMap.
Context {number : Type} (toString : number -> string).

Lemma coordinateLabel_truthy (lat lng : number) :
  JS.truthy (coordinateLabel toString lat lng) = true.
Proof.
  unfold coordinateLabel, JS.truthy.
  destruct (toString lat) as [|c s]; reflexivity.
Qed.

(** With a display address the lookup hands that address over. *)
Lemma fetchAddress_named {P : Type} (onLocationSelect : LocationData -> P -> P)
    (lat lng : number) (name : string) (st : State * P) :
  JS.truthy name = true ->
  fetchAddress toString onLocationSelect lat lng
    (jsonResolved (Some (mkReply (Some name)))) st
  = (setAddress name (fst st),
     onLocationSelect (mkLocationData lat lng name) (snd st)).
Proof. intros H. unfold fetchAddress, displayName. cbn. by rewrite H. Qed.

(** C8: when the lookup fails or carries no display address,
    [fetchAddress] still calls [onLocationSelect] once, with the
    coordinate and the label [lat, lng] as the address; this holds for
    a click on the map and for the end of a drag, and the portal then
    holds the coordinate and the label as its address. *)
Theorem reverse_geocode_fallback {P : Type}
    (onLocationSelect : LocationData -> P -> P)
    (lat lng : number) (result : Lookup) (st : State * P)
    (s : OrganizerPortal.State) :
  Spec.noDisplayAddress result ->
  let label := toString lat +:+ ", " +:+ toString lng in
  let selection := mkLocationData lat lng label in
  fetchAddress toString onLocationSelect lat lng result st
  = (fst st, onLocationSelect selection (snd st)) /\
  mapClick toString onLocationSelect (mkLatLng lat lng) result st
  = (setPosition (mkLatLng lat lng) (fst st), onLocationSelect selection (snd st)) /\
  markerDragEnd toString onLocationSelect (mkLatLng lat lng) result st
  = (setPosition (mkLatLng lat lng) (fst st), onLocationSelect selection (snd st)) /\
  OrganizerPortal.coordinates (OrganizerPortal.handleLocationSelect selection s)
  = mkLatLng lat lng /\
  OrganizerPortal.address (OrganizerPortal.handleLocationSelect selection s) = label.
Proof.
  intros Hno label selection. repeat apply conj.
  - destruct Hno; reflexivity.
  - destruct Hno; reflexivity.
  - destruct Hno; reflexivity.
  - subst selection label. change (toString lat +:+ ", " +:+ toString lng)
      with (coordinateLabel toString lat lng).
    unfold OrganizerPortal.handleLocationSelect. cbn [locAddress locLat locLng].
    rewrite coordinateLabel_truthy. reflexivity.
  - subst selection label. change (toString lat +:+ ", " +:+ toString lng)
      with (coordinateLabel toString lat lng).
    unfold OrganizerPortal.handleLocationSelect. cbn [locAddress locLat locLng].
    rewrite coordinateLabel_truthy. reflexivity.
Qed.

End PickerFacts.

Lemma reverse_geocode_fallback_witness :
  OrganizerPortal.address
    (snd (LocationPickerMap.fetchAddress pretty OrganizerPortal.handleLocationSelect
            40 (-74) LocationPickerMap.fetchRejected
            (LocationPickerMap.mkState Samples.center EmptyString,
             OrganizerPortal.ui Samples.portal)))
  = "40, -74".
Proof.
  rewrite (proj1 (reverse_geocode_fallback pretty OrganizerPortal.handleLocationSelect
                    40 (-74) LocationPickerMap.fetchRejected
                    (LocationPickerMap.mkState Samples.center EmptyString,
                     OrganizerPortal.ui Samples.portal)
                    (OrganizerPortal.ui Samples.portal)
                    Spec.lookup_fetch_failed)).
  reflexivity.
Defined.

(** ** OrganizerPortal: the camp form *)

Section PortalFacts.
Import OrganizerPortal.
Context {number : Type}.

(** C10: after a submission that the store accepted, the seven text
    fields of the form are empty and the coordinates are the ones
    picked before. *)
Theorem submit_resets_text_fields (today : string) (w : World (number:=number))
    (uid : string) (db' : CampStore.Db) :
  currentUser (ui w) = Some uid ->
  CampStore.addDonationCamp uid (formFields (ui w)) (db w) = Some db' ->
  let w' := handleAddCamp today w in
  campName (ui w') = EmptyString /\
  organizerName (ui w') = EmptyString /\
  contact (ui w') = EmptyString /\
  address (ui w') = EmptyString /\
  date (ui w') = EmptyString /\
  startTime (ui w') = EmptyString /\
  endTime (ui w') = EmptyString /\
  coordinates (ui w') = coordinates (ui w) /\
  message (ui w') = "Donation camp added successfully!".
Proof.
  intros Hu Hadd. unfold handleAddCamp. cbn [ui db setLoading currentUser].
  rewrite Hu.
  replace (formFields (setLoading true (ui w))) with (formFields (ui w)) by reflexivity.
  rewrite Hadd. unfold loadCamps. cbn [db ui].
  destruct (CampStore.getDonationCamps db'); cbn; repeat split; reflexivity.
Qed.

(** A submission that fails keeps the form as it was filled. *)
Lemma failed_submit_keeps_fields (today : string) (w : World (number:=number))
    (uid : string) :
  currentUser (ui w) = Some uid ->
  CampStore.addDonationCamp uid (formFields (ui w)) (db w) = None ->
  let w' := handleAddCamp today w in
  formFields (ui w') = formFields (ui w) /\
  message (ui w') = "Error adding camp. Please try again.".
Proof.
  intros Hu Hadd. unfold handleAddCamp. cbn [ui db setLoading currentUser].
  rewrite Hu.
  replace (formFields (setLoading true (ui w))) with (formFields (ui w)) by reflexivity.
  rewrite Hadd. split; reflexivity.
Qed.

End PortalFacts.

Lemma submit_resets_text_fields_witness :
  let w' := OrganizerPortal.handleAddCamp "2024-06-01" Samples.portal in
  OrganizerPortal.campName (OrganizerPortal.ui Samples.portal) = "Summer Drive" /\
  OrganizerPortal.campName (OrganizerPortal.ui w') = EmptyString /\
  OrganizerPortal.coordinates (OrganizerPortal.ui w') = Samples.center.
Proof.
  destruct (submit_resets_text_fields "2024-06-01" Samples.portal "org1"
              (CampStore.mkDb
                 (Samples.camps ++
                    [CampStore.mkCamp "camp3" "org1" "Summer Drive" "Red Cross NY"
                       "+1 234 567 8900" "123 Main St, New York" "2024-06-05"
                       "09:00" "17:00" Samples.center])
                 true)
              eq_refl eq_refl) as (H1 & _ & _ & _ & _ & _ & _ & H8 & _).
  split; [reflexivity|]. split; assumption.
Defined.

(** * Further properties *)

(** ** The donation schedule *)

Section ScheduleFurther.
Import Firestore HospitalDashboard Aux.

Lemma filter_comm {A : Type} (f g : A -> bool) (l : list A) :
  List.filter f (List.filter g l) = List.filter g (List.filter f l).
Proof.
  induction l as [|a l IH]; [reflexivity|]. cbn [List.filter].
  destruct (f a) eqn:Ef, (g a) eqn:Eg; cbn [List.filter];
    rewrite ?Ef, ?Eg, IH; reflexivity.
Qed.

Lemma filter_refines {A : Type} (f g : A -> bool) (l : list A) :
  (forall a, In a l -> f a = true -> g a = true) ->
  List.filter f l = List.filter f (List.filter g l).
Proof.
  induction l as [|a l IH]; intros H; [reflexivity|]. cbn [List.filter].
  assert (IH' : List.filter f l = List.filter f (List.filter g l)).
  { apply IH. intros b Hb. apply H. by right. }
  destruct (f a) eqn:Ef.
  - rewrite (H a) by (done || by left). cbn [List.filter]. rewrite Ef. by f_equal.
  - destruct (g a); cbn [List.filter]; rewrite ?Ef; exact IH'.
Qed.

(** X1: with the same search term, the active view and the past view
    split the appointments whose donor name matches: together they show
    each of them once, and none is shown in both. *)
Theorem schedule_views_partition (appointments : list Appointment) (search : string) :
  Permutation
    (displayAppointments appointments active search
     ++ displayAppointments appointments past search)
    (List.filter
       (fun appt => JS.includes (JS.toLowerCase (donorName appt)) (JS.toLowerCase search))
       appointments) /\
  (forall appt,
     ~ (In appt (displayAppointments appointments active search)
        /\ In appt (displayAppointments appointments past search))).
Proof.
  split.
  - unfold displayAppointments, filteredAppointments.
    rewrite !(filter_comm (fun appt => JS.includes _ _)).
    symmetry. apply filter_split_Permutation.
  - intros appt [Ha Hp].
    apply displayAppointments_In in Ha as (_ & Ha & _).
    apply displayAppointments_In in Hp as (_ & Hp & _).
    cbn in Ha, Hp. rewrite Ha in Hp. destruct Hp; discriminate.
Qed.

(** X2: the schedule has no section (the "No appointments" box is
    shown) exactly when its two filters leave no appointment; with the
    search box empty, that is when no appointment of the list has a
    status of the view. *)
Theorem schedule_empty_iff (appointments : list Appointment) (view : View)
    (search : string) :
  (DonationSchedule appointments view search = []
   <-> displayAppointments appointments view search = []) /\
  (DonationSchedule appointments view EmptyString = []
   <-> forall appt, In appt appointments -> ~ Spec.inView view appt).
Proof.
  assert (G : forall term,
            DonationSchedule appointments view term = []
            <-> displayAppointments appointments view term = []).
  { intros term. rewrite schedule_sections. cbn zeta. split.
    - intros E%map_eq_nil.
      destruct (displayAppointments appointments view term) as [|appt l] eqn:Ed;
        [reflexivity|].
      assert (Hs : In (date appt) (sortedDates (appt :: l)))
        by (apply sortedDates_In; exists appt; split; [by left | done]).
      rewrite E in Hs. destruct Hs.
    - intros ->.
      destruct (sortedDates []) as [|d ds] eqn:E; [reflexivity|].
      assert (Hd : In d (sortedDates [])) by (rewrite E; by left).
      apply sortedDates_In in Hd as (appt & [] & _). }
  split; [apply G|]. rewrite G, displayAppointments_empty_term. split.
  - intros E appt Hin Hv.
    assert (Hf : In appt (filteredAppointments appointments view))
      by (apply filteredAppointments_In; done).
    rewrite E in Hf. destruct Hf.
  - intros H.
    destruct (filteredAppointments appointments view) as [|appt l] eqn:E;
      [reflexivity|].
    assert (Hf : In appt (filteredAppointments appointments view))
      by (rewrite E; by left).
    apply filteredAppointments_In in Hf as [Hin Hv]. destruct (H appt Hin Hv).
Qed.

Lemma append_assoc (a b c : string) : (a +:+ b) +:+ c = a +:+ (b +:+ c).
Proof.
  induction a as [|x a IH]; [reflexivity|]. rewrite !append_cons. by f_equal.
Qed.

Lemma includes_shorter (name pre term post : string) :
  JS.includes (JS.toLowerCase name) (JS.toLowerCase (pre +:+ term +:+ post)) = true ->
  JS.includes (JS.toLowerCase name) (JS.toLowerCase term) = true.
Proof.
  rewrite !includes_spec, !toLowerCase_app. intros (a & b & ->).
  exists (a +:+ JS.toLowerCase pre), (JS.toLowerCase post +:+ b).
  rewrite !append_assoc. reflexivity.
Qed.

(** X3: for donor names and search terms written in ASCII, typing
    more into the search box only filters what is shown: the
    appointments shown for a longer term (the term with text before or
    after it) are those shown for the term that also match the longer
    one, in the same order. *)
Theorem search_narrows (appointments : list Appointment) (view : View)
    (pre term post : string) :
  CaseSpec.isAscii (pre +:+ term +:+ post) = true ->
  (forall a, In a appointments -> CaseSpec.isAscii (donorName a) = true) ->
  displayAppointments appointments view (pre +:+ term +:+ post)
  = List.filter
      (fun appt =>
         Unicode.nameMatches (Unicode.units (donorName appt))
           (Unicode.units (pre +:+ term +:+ post)))
      (displayAppointments appointments view term) /\
  (forall appt,
     In appt (displayAppointments appointments view (pre +:+ term +:+ post)) ->
     In appt (displayAppointments appointments view term)).
Proof.
  intros Hs Hn.
  assert (E : displayAppointments appointments view (pre +:+ term +:+ post)
              = List.filter
                  (fun appt =>
                     Unicode.nameMatches (Unicode.units (donorName appt))
                       (Unicode.units (pre +:+ term +:+ post)))
                  (displayAppointments appointments view term)).
  { transitivity
      (List.filter
         (fun appt =>
            JS.includes (JS.toLowerCase (donorName appt))
              (JS.toLowerCase (pre +:+ term +:+ post)))
         (displayAppointments appointments view term)).
    - unfold displayAppointments. apply filter_refines.
      intros a _. apply includes_shorter.
    - apply filter_ext_In. intros a Ha. symmetry.
      apply nameMatches_units; [|exact Hs].
      apply Hn. apply displayAppointments_In in Ha. tauto. }
  split; [exact E|]. intros appt. rewrite E. intros H.
  apply filter_In in H as [H _]. exact H.
Qed.

Lemma search_narrows_witness :
  displayAppointments [Samples.jane; Samples.john; Samples.janet; Samples.jim]
    past ("j" +:+ "an" +:+ "et")
  = List.filter
      (fun appt =>
         Unicode.nameMatches (Unicode.units (donorName appt))
           (Unicode.units ("j" +:+ "an" +:+ "et")))
      (displayAppointments [Samples.jane; Samples.john; Samples.janet; Samples.jim]
         past "an").
Proof.
  apply (search_narrows [Samples.jane; Samples.john; Samples.janet; Samples.jim]
           past "j" "an" "et").
  - reflexivity.
  - intros a [<-|[<-|[<-|[<-|[]]]]]; reflexivity.
Defined.

End ScheduleFurther.

Section ScheduleDates.
Import Firestore HospitalDashboard Aux.

Lemma ltb_irrefl (a : string) : String.ltb a a = false.
Proof.
  destruct (String.ltb a a) eqn:E; [|reflexivity].
  apply ltb_leb_ne in E as [_ E]. done.
Qed.

Lemma ltb_asym (a b : string) :
  String.ltb a b = true -> String.ltb b a = true -> False.
Proof.
  intros [H1 Hne]%ltb_leb_ne [H2 _]%ltb_leb_ne.
  apply Hne. by apply String.leb_antisym.
Qed.

(** Two strictly ascending lists with the same elements are equal. *)
Lemma strictly_sorted_unique (l1 l2 : list string) :
  StronglySorted (fun a b => String.ltb a b = true) l1 ->
  StronglySorted (fun a b => String.ltb a b = true) l2 ->
  (forall x, In x l1 <-> In x l2) -> l1 = l2.
Proof.
  intros H1. revert l2. induction H1 as [|a l1 H1 IH Ha]; intros l2 H2 Hin.
  - destruct l2 as [|b l2]; [reflexivity|]. destruct (proj2 (Hin b)). by left.
  - destruct H2 as [|b l2 H2 Hb].
    { destruct (proj1 (Hin a)). by left. }
    rewrite List.Forall_forall in Ha, Hb.
    assert (a = b) as <-.
    { destruct (proj1 (Hin a) (or_introl eq_refl)) as [E|E]; [done|].
      destruct (proj2 (Hin b) (or_introl eq_refl)) as [E'|E']; [done|].
      destruct (ltb_asym a b); [by apply Ha | by apply Hb]. }
    f_equal. apply IH; [done|]. intros x. split; intros Hx.
    + destruct (proj1 (Hin x) (or_intror Hx)) as [<-|E]; [|done].
      specialize (Ha a Hx). rewrite ltb_irrefl in Ha. discriminate.
    + destruct (proj2 (Hin x) (or_intror Hx)) as [<-|E]; [|done].
      specialize (Hb a Hx). rewrite ltb_irrefl in Hb. discriminate.
Qed.

Lemma schedule_dates (appointments : list Appointment) (view : View) (search : string) :
  map fst (DonationSchedule appointments view search)
  = sortedDates (displayAppointments appointments view search).
Proof. rewrite schedule_sections, map_map. cbn [fst]. apply map_id. Qed.

(** X4: the dates of the sections do not depend on the order in which
    the store lists the appointments: two lists with the same
    appointments give the same dates in the same order. *)
Theorem schedule_dates_ignore_store_order (l l' : list Appointment) (view : View)
    (search : string) :
  Permutation l l' ->
  map fst (DonationSchedule l view search) = map fst (DonationSchedule l' view search).
Proof.
  intros Hp. rewrite !schedule_dates.
  apply strictly_sorted_unique; [apply sortedDates_ascending ..|].
  intros d. rewrite !sortedDates_In.
  split; intros (a & Ha & Hd); exists a; (split; [|done]);
    apply displayAppointments_In in Ha as (Ha & Hv & Hn);
    apply displayAppointments_In; (split; [|done]);
    revert Ha; apply Permutation_in; [done | by symmetry].
Qed.

Lemma schedule_dates_ignore_store_order_witness :
  map fst (DonationSchedule [Samples.jane; Samples.jim] active EmptyString)
  = map fst (DonationSchedule [Samples.jim; Samples.jane] active EmptyString).
Proof.
  apply (schedule_dates_ignore_store_order [Samples.jane; Samples.jim]
           [Samples.jim; Samples.jane] active EmptyString).
  apply perm_swap.
Defined.

End ScheduleDates.

(** ** Stock cards and handlers *)

Section DashboardFurther.
Import Firestore HospitalDashboard.

(** X5: on the card of a count that is not negative, the minus button
    is disabled exactly when the card reads OUT OF STOCK; and whatever
    the count, a card flagged critical is flagged low and has its minus
    button disabled. *)
Theorem minus_disabled_iff_out_of_stock (type : string) (count : Z) :
  0 <= count ->
  (minusDisabled (StockCard type count) = true
   <-> statusLabel (StockCard type count) = "OUT OF STOCK") /\
  (isCritical (StockCard type count) = true ->
   isLow (StockCard type count) = true
   /\ minusDisabled (StockCard type count) = true).
Proof.
  intros Hc. unfold StockCard. cbn [minusDisabled statusLabel isCritical isLow].
  destruct (Z.eqb_spec count 0), (Z.ltb_spec count 5), (Z.leb_spec count 0);
    repeat split; intros; try congruence; try reflexivity; lia.
Qed.

Lemma minus_disabled_iff_out_of_stock_witness :
  minusDisabled (StockCard "B-" 3) = true
  <-> statusLabel (StockCard "B-" 3) = "OUT OF STOCK".
Proof. apply (minus_disabled_iff_out_of_stock "B-" 3). lia. Defined.

(** X6: when the store cannot be reached, no handler changes the
    store, the inventory shown or the appointments shown: a stock
    update, a completion and a no-show only add their error toast, and
    a reload of the appointments does nothing at all. *)
Theorem unreachable_store_changes_nothing (w : World) (type : string) (change : Z)
    (appt : Appointment) (confirmedBloodType : string) :
  online (db w) = false ->
  handleUpdateStock type change w = toast (toast_error "Failed to update stock") w /\
  loadAppointments w = w /\
  (JS.truthy confirmedBloodType = true ->
   handleCompleteAppointment appt confirmedBloodType true w
   = toast (toast_error "Failed to complete appointment.") w) /\
  handleNoShow (id appt) true w = toast (toast_error "Failed to update status") w /\
  (forall t, db (toast t w) = db w
             /\ inventory (ui (toast t w)) = inventory (ui w)
             /\ appointments (ui (toast t w)) = appointments (ui w)
             /\ toasts (ui (toast t w)) = toasts (ui w) ++ [t]).
Proof.
  intros Ho. repeat apply conj.
  - by apply handleUpdateStock_offline.
  - unfold loadAppointments, getVenueAppointments. rewrite Ho.
    by destruct (currentUser (ui w)).
  - intros Ht. unfold handleCompleteAppointment, completeAppointment.
    rewrite Ht, Ho. cbn [negb andb].
    by destruct (currentUser (ui w)), (inventory (ui w)).
  - unfold handleNoShow, markAppointmentNoShow. rewrite Ho. reflexivity.
  - intros t. repeat split.
Qed.

Lemma unreachable_store_changes_nothing_witness :
  handleUpdateStock "A+" 1 MoreSamples.offlineWorld
  = toast (toast_error "Failed to update stock") MoreSamples.offlineWorld.
Proof.
  apply (unreachable_store_changes_nothing MoreSamples.offlineWorld "A+" 1
           Samples.jane "A+").
  reflexivity.
Defined.

Lemma snapshot_in_step (w : World) :
  Aux.inStep w -> loading (ui w) = false -> push w = w.
Proof.
  intros (uid & Hu & Hi) Hl. unfold push. rewrite Hu.
  unfold onSnapshot, snapshot. rewrite <- Hi.
  destruct w as [d [u i a l t ts]]. cbn in *. by subst.
Qed.

Lemma snapshot_keeps_sound (w : World) :
  Aux.inStep w /\ Aux.nonNegative w ->
  Aux.inStep (push w) /\ Aux.nonNegative (push w).
Proof.
  intros [(uid & Hu & Hi) Hn]. unfold push. rewrite Hu.
  unfold onSnapshot, snapshot. split.
  - exists uid. cbn. done.
  - intros inv t. cbn. rewrite <- Hi. apply Hn.
Qed.

(** [HospitalDashboard.handleUpdateStock] is the handler followed by
    the arrival of the snapshot. *)
Lemma handleUpdateStock_then_snapshot (type : string) (change : Z) (w : World) :
  Aux.inStep w -> loading (ui w) = false ->
  push (StockEvents.handleUpdateStock type change w) = handleUpdateStock type change w.
Proof.
  intros Hs Hl.
  assert (Ht : forall t, push (toast t w) = toast t w).
  { intros t. apply snapshot_in_step; [|exact Hl].
    destruct Hs as (uid & Hu & Hi). by exists uid. }
  unfold StockEvents.handleUpdateStock, handleUpdateStock.
  destruct (currentUser (ui w)) as [uid|] eqn:Hu; [|apply Ht].
  destruct (updateHospitalStock uid type change (db w)) as [db'|]; [|apply Ht].
  unfold push, toast, setDb, onSnapshot. cbn. rewrite Hu. reflexivity.
Qed.

Lemma pressStock_then_snapshot (type : string) (b : StockButton) (w : World) :
  Aux.inStep w -> loading (ui w) = false ->
  push (StockEvents.pressStock type b w) = pressStock type b w.
Proof.
  intros Hs Hl. unfold StockEvents.pressStock, pressStock. rewrite Hl.
  destruct (inventory (ui w)) as [inv|]; [|by apply snapshot_in_step].
  destruct (activeTab (ui w)); [|by apply snapshot_in_step].
  destruct (existsb _ bloodTypes); [|by apply snapshot_in_step].
  unfold StockEvents.clickStock, clickStock.
  destruct b; [destruct (minusDisabled _); [by apply snapshot_in_step|]|];
    by apply handleUpdateStock_then_snapshot.
Qed.

Lemma press_in_turn_keeps_sound (type : string) (b : StockButton) (w : World) :
  Aux.inStep w /\ Aux.nonNegative w ->
  Aux.inStep (push (StockEvents.pressStock type b w))
  /\ Aux.nonNegative (push (StockEvents.pressStock type b w)).
Proof.
  intros H. destruct (loading (ui w)) eqn:Hl.
  - unfold StockEvents.pressStock. rewrite Hl. by apply snapshot_keeps_sound.
  - rewrite pressStock_then_snapshot by tauto. by apply pressStock_invariant.
Qed.

(** X7: as long as the snapshot of each update arrives before the next
    press, the buttons of the stock cards keep the inventory sound:
    when the inventory shown is the one of the store and holds no
    negative count, this is still so after any sequence of presses on
    the minus and plus buttons, each followed by its snapshot, whether
    the store answers or not. *)
Theorem stock_presses_keep_inventory_sound (presses : list (string * StockButton))
    (w : World) :
  Aux.inStep w -> Aux.nonNegative w ->
  let w' := StockEvents.run (StockEvents.inTurn presses) w in
  Aux.inStep w' /\ Aux.nonNegative w'.
Proof.
  intros Hs Hn. cbn zeta.
  assert (H : Aux.inStep w /\ Aux.nonNegative w) by done. clear Hs Hn.
  revert w H. induction presses as [|p presses IH]; intros w H; [exact H|].
  unfold StockEvents.run, StockEvents.inTurn in *. cbn [flat_map app fold_left].
  apply IH. cbn [StockEvents.step]. by apply press_in_turn_keeps_sound.
Qed.

Lemma sample_inventory_sound : Aux.inStep Samples.world /\ Aux.nonNegative Samples.world.
Proof.
  split.
  - exists "h1". split; reflexivity.
  - intros inv bloodType [= <-]. unfold stockOf, Samples.cityHospital. cbn [bloodStock].
    rewrite !lookup_insert, lookup_empty. repeat case_decide; cbn; lia.
Defined.

Lemma stock_presses_keep_inventory_sound_witness :
  Aux.nonNegative
    (StockEvents.run
       (StockEvents.inTurn [("O+", Minus); ("O+", Plus); ("A+", Minus)])
       Samples.world).
Proof.
  apply (stock_presses_keep_inventory_sound
           [("O+", Minus); ("O+", Plus); ("A+", Minus)] Samples.world);
    apply sample_inventory_sound.
Defined.

Lemma minus_presses_count (type : string) (n : nat) (w : World) (uid : string)
    (shown current : InventoryRecord) :
  currentUser (ui w) = Some uid ->
  inventory (ui w) = Some shown ->
  inventories (db w) !! uid = Some current ->
  loading (ui w) = false ->
  activeTab (ui w) = stock ->
  existsb (String.eqb type) bloodTypes = true ->
  online (db w) = true ->
  0 < stockOf shown type ->
  let w' := StockEvents.run (StockEvents.minusPresses type n) w in
  Aux.countOf (inventories (db w') !! uid) type
  = Some (stockOf current type - Z.of_nat n) /\
  inventory (ui w') = Some shown.
Proof.
  revert w current. induction n as [|n IH];
    intros w current Hu Hi Hd Hl Ht Hb Ho Hc; cbn zeta.
  - cbn. rewrite Hd, Hi. cbn. split; [f_equal; lia | done].
  - unfold StockEvents.run, StockEvents.minusPresses in *.
    cbn [repeat fold_left StockEvents.step].
    set (w1 := StockEvents.pressStock type Minus w).
    assert (E : w1 = toast (toast_success (stockMessage type (-1)))
                       (setDb (mkDb (<[uid := increment type (-1) (clock (db w)) current]>
                                      (inventories (db w)))
                                 (Firestore.appointments (db w)) (donations (db w))
                                 (clock (db w)) (online (db w))) w)).
    { subst w1. unfold StockEvents.pressStock. rewrite Hl, Hi, Ht, Hb.
      unfold StockEvents.clickStock, StockCard. cbn [minusDisabled cardType].
      rewrite orZero_default.
      destruct (Z.leb_spec (default 0 (bloodStock shown !! type)) 0) as [Hle|_].
      { unfold stockOf in Hc. lia. }
      unfold StockEvents.handleUpdateStock, updateHospitalStock.
      rewrite Hu, Ho, Hd. reflexivity. }
    specialize (IH w1 (increment type (-1) (clock (db w)) current)).
    cbn zeta in IH. rewrite E in IH |- *. cbn in IH |- *.
    destruct IH as [IH1 IH2]; try done.
    { apply lookup_insert_eq. }
    split; [|exact IH2]. rewrite IH1. f_equal.
    unfold stockOf at 1. rewrite increment_lookup.
    rewrite decide_True by done. cbn. lia.
Qed.

(** X17: presses made before the snapshot arrives all see the count
    shown at the first of them: on a card that shows a count above 0,
    [n] presses on the minus button with no snapshot in between are
    all handed to the store, which then holds the count less [n]
    (below zero when [n] is larger than the count), while the card
    still shows the old count. *)
Theorem presses_before_snapshot_see_old_count (type : string) (n : nat) (w : World)
    (uid : string) (inv : InventoryRecord) :
  currentUser (ui w) = Some uid ->
  inventory (ui w) = Some inv ->
  inventories (db w) !! uid = Some inv ->
  loading (ui w) = false ->
  activeTab (ui w) = stock ->
  In type bloodTypes ->
  online (db w) = true ->
  0 < stockOf inv type ->
  let w' := StockEvents.run (StockEvents.minusPresses type n) w in
  Aux.countOf (inventories (db w') !! uid) type = Some (stockOf inv type - Z.of_nat n) /\
  Aux.countOf (inventory (ui w')) type = Some (stockOf inv type) /\
  Aux.countOf (inventory (ui (push w'))) type = Some (stockOf inv type - Z.of_nat n).
Proof.
  intros Hu Hi Hd Hl Ht Hb Ho Hc. cbn zeta.
  assert (Hb' : existsb (String.eqb type) bloodTypes = true).
  { apply existsb_exists. exists type. split; [exact Hb | apply String.eqb_refl]. }
  pose proof (minus_presses_count type n w uid inv inv Hu Hi Hd Hl Ht Hb' Ho Hc)
    as [H1 H2].
  cbn zeta in H1, H2. split; [exact H1|]. split.
  - rewrite H2. reflexivity.
  - assert (Hu' : currentUser (ui (StockEvents.run (StockEvents.minusPresses type n) w))
                  = Some uid).
    { clear H1 H2 Hi Hd Hl Ht Hb Hb' Ho Hc. revert w Hu.
      unfold StockEvents.run, StockEvents.minusPresses.
      induction n as [|n IH]; intros w Hu; [exact Hu|].
      cbn [repeat fold_left]. apply IH. cbn [StockEvents.step].
      unfold StockEvents.pressStock.
      destruct (loading (ui w)); [done|].
      destruct (inventory (ui w)); [|done].
      destruct (activeTab (ui w)); [|done].
      destruct (existsb _ bloodTypes); [|done].
      unfold StockEvents.clickStock. destruct (minusDisabled _); [done|].
      unfold StockEvents.handleUpdateStock. rewrite Hu.
      by destruct (updateHospitalStock _ _ _ _). }
    unfold push. rewrite Hu'. cbn. exact H1.
Qed.

Lemma presses_before_snapshot_see_old_count_witness :
  Aux.countOf
    (inventories (db (StockEvents.run (StockEvents.minusPresses "B-" 4) Samples.world))
     !! "h1") "B-"
  = Some (-1).
Proof.
  apply (presses_before_snapshot_see_old_count "B-" 4 Samples.world "h1"
           Samples.cityHospital); try reflexivity.
  vm_compute. tauto.
Defined.

End DashboardFurther.

(** ** OrganizerPortal *)

Section PortalFurther.
Import OrganizerPortal.
Context {number : Type}.

Lemma sort_insert_filter {A : Type} (le : A -> A -> bool) (p : A -> bool)
    (x : A) (l : list A) :
  (forall y, In y l -> p x = true -> p y = true -> le x y = true) ->
  List.filter p (JS.sort_insert le x l)
  = if p x then x :: List.filter p l else List.filter p l.
Proof.
  induction l as [|y l IH]; intros H; cbn [JS.sort_insert List.filter].
  - by destruct (p x).
  - assert (IH' : List.filter p (JS.sort_insert le x l)
                  = if p x then x :: List.filter p l else List.filter p l).
    { apply IH. intros z Hz. apply H. by right. }
    destruct (le x y) eqn:E; cbn [List.filter].
    + by destruct (p x).
    + rewrite IH'. destruct (p x) eqn:Ex; [|done].
      destruct (p y) eqn:Ey; [|done].
      rewrite (H y) in E by (done || by left). discriminate.
Qed.

Lemma sort_filter {A : Type} (le : A -> A -> bool) (p : A -> bool) (l : list A) :
  (forall x y, p x = true -> p y = true -> le x y = true) ->
  List.filter p (JS.sort le l) = List.filter p l.
Proof.
  intros H. induction l as [|x l IH]; [reflexivity|].
  unfold JS.sort in *. cbn [foldr List.filter].
  rewrite sort_insert_filter by (intros; by apply H). by rewrite IH.
Qed.

(** X8: camps of one and the same date are listed in the order in
    which the store returned them. *)
Theorem upcoming_keeps_store_order_on_ties
    (data : list (@CampStore.DonationCamp number)) (today d : string) :
  List.filter (fun camp => String.eqb (CampStore.date camp) d) (upcoming data today)
  = List.filter (fun camp => String.eqb (CampStore.date camp) d)
      (List.filter (fun camp => String.leb today (CampStore.date camp)) data).
Proof.
  unfold upcoming. apply sort_filter.
  intros x y Hx%String.eqb_eq Hy%String.eqb_eq.
  unfold JS.byDifference. rewrite Hx, Hy.
  destruct (JSDate.getTime d); [|reflexivity]. apply Z.leb_le. lia.
Qed.

(** X9: a submission that fails (nobody signed in, or the store
    rejects the camp) leaves the store, the camps listed, the seven
    fields and the coordinates as they were, shows the error message
    and ends with [loading] off, so the form can be sent again. *)
Theorem failed_submit_can_be_retried (today : string) (w : World (number:=number)) :
  (currentUser (ui w) = None
   \/ exists uid, currentUser (ui w) = Some uid
                  /\ CampStore.addDonationCamp uid (formFields (ui w)) (db w) = None) ->
  let w' := handleAddCamp today w in
  db w' = db w /\
  camps (ui w') = camps (ui w) /\
  formFields (ui w') = formFields (ui w) /\
  message (ui w') = "Error adding camp. Please try again." /\
  loading (ui w') = false.
Proof.
  intros H. unfold handleAddCamp. cbn [ui db setLoading currentUser].
  replace (formFields (setLoading true (ui w))) with (formFields (ui w)) by reflexivity.
  destruct H as [-> | (uid & -> & ->)]; repeat split.
Qed.


End PortalFurther.


Lemma failed_submit_can_be_retried_witness :
  OrganizerPortal.formFields
    (OrganizerPortal.ui
       (OrganizerPortal.handleAddCamp "2024-06-01" MoreSamples.offlinePortal))
  = OrganizerPortal.formFields (OrganizerPortal.ui MoreSamples.offlinePortal).
Proof.
  apply (failed_submit_can_be_retried "2024-06-01" MoreSamples.offlinePortal).
  right. exists "org1". split; reflexivity.
Defined.

(** ** LocationPickerMap and the form *)

Section PickerFurther.
Import LocationPickerMap PickerSession.
Context {number : Type} (toString : number -> string).

Lemma displayName_truthy (data : option NominatimReply) (name : string) :
  displayName data = Some name -> JS.truthy name = true.
Proof.
  unfold displayName. destruct data as [[[n|]]|]; cbn [display_name];
    try (intros H; discriminate H).
  destruct (JS.truthy n) eqn:E; [|intros H; discriminate H]. by intros [= <-].
Qed.

(** The address a lookup ends with: the display name, or the label. *)
Lemma fetchAddress_delivers (lat lng : number) (result : Lookup)
    (p : @State number) (s : @OrganizerPortal.State number) :
  exists a,
    JS.truthy a = true /\
    snd (fetchAddress toString OrganizerPortal.handleLocationSelect lat lng result (p, s))
    = OrganizerPortal.setAddress a (OrganizerPortal.setCoordinates (mkLatLng lat lng) s) /\
    position (fst (fetchAddress toString OrganizerPortal.handleLocationSelect
                     lat lng result (p, s))) = position p.
Proof.
  assert (Hlabel : exists a,
            JS.truthy a = true /\
            OrganizerPortal.handleLocationSelect
              (mkLocationData lat lng (coordinateLabel toString lat lng)) s
            = OrganizerPortal.setAddress a
                (OrganizerPortal.setCoordinates (mkLatLng lat lng) s)).
  { exists (coordinateLabel toString lat lng). split; [apply coordinateLabel_truthy|].
    unfold OrganizerPortal.handleLocationSelect. cbn [locAddress locLat locLng].
    by rewrite coordinateLabel_truthy. }
  destruct result as [| |data]; cbn [fetchAddress fst snd].
  - destruct Hlabel as (a & Ha & E). exists a. by rewrite E.
  - destruct Hlabel as (a & Ha & E). exists a. by rewrite E.
  - destruct (displayName data) as [name|] eqn:En; cbn [fst snd].
    + exists name. pose proof (displayName_truthy _ _ En) as Hn.
      split; [done|]. split; [|done].
      unfold OrganizerPortal.handleLocationSelect. cbn [locAddress locLat locLng].
      by rewrite Hn.
    + destruct Hlabel as (a & Ha & E). exists a. by rewrite E.
Qed.

Lemma latlng_eta (l : @LatLng number) : mkLatLng (lat l) (lng l) = l.
Proof. by destruct l. Qed.

Lemma mapClick_delivers (latlng : @LatLng number) (result : Lookup)
    (p : @State number) (s : @OrganizerPortal.State number) :
  let st' := mapClick toString OrganizerPortal.handleLocationSelect latlng result (p, s) in
  position (fst st') = latlng /\
  (exists a, JS.truthy a = true /\
     snd st' = OrganizerPortal.setAddress a (OrganizerPortal.setCoordinates latlng s)).
Proof.
  cbn zeta. unfold mapClick, handleMapClick. cbn [fst snd].
  destruct (fetchAddress_delivers (lat latlng) (lng latlng) result
              (setPosition latlng p) s) as (a & Ha & Es & Ep).
  rewrite Es, Ep, latlng_eta. split; [reflexivity|]. eauto.
Qed.

(** X11: however the lookup ends, a click on the map and the end of a
    drag put the marker on the picked point and hand the same point to
    the form, together with an address that is never empty: the form's
    coordinates are the picked point and its address field is
    overwritten. *)
Theorem map_pick_reaches_form (latlng : @LatLng number) (result : Lookup)
    (p : @State number) (s : @OrganizerPortal.State number) :
  let clicked := mapClick toString OrganizerPortal.handleLocationSelect latlng result (p, s) in
  let dragged :=
    markerDragEnd toString OrganizerPortal.handleLocationSelect latlng result (p, s) in
  dragged = clicked /\
  position (fst clicked) = latlng /\
  OrganizerPortal.coordinates (snd clicked) = latlng /\
  OrganizerPortal.address (snd clicked) <> EmptyString.
Proof.
  cbn zeta. split; [reflexivity|].
  destruct (mapClick_delivers latlng result p s) as (Hp & a & Ha & Es).
  split; [exact Hp|]. rewrite Es. cbn. split; [reflexivity|].
  intros ->. discriminate.
Qed.

Lemma step_agree (ev : Event) (st : @State number * @OrganizerPortal.State number) :
  position (fst (step toString OrganizerPortal.handleLocationSelect st ev))
  = OrganizerPortal.coordinates
      (snd (step toString OrganizerPortal.handleLocationSelect st ev)).
Proof.
  destruct st as [p s]. destruct ev as [latlng result|latlng result|x y label].
  - unfold step.
    destruct (mapClick_delivers latlng result p s) as (Hp & a & Ha & Es).
    rewrite Hp, Es. reflexivity.
  - unfold step. change (markerDragEnd toString OrganizerPortal.handleLocationSelect
                           latlng result (p, s))
      with (mapClick toString OrganizerPortal.handleLocationSelect latlng result (p, s)).
    destruct (mapClick_delivers latlng result p s) as (Hp & a & Ha & Es).
    rewrite Hp, Es. reflexivity.
  - unfold step, handleSearchResult, OrganizerPortal.handleLocationSelect.
    cbn [fst snd locLat locLng locAddress lat lng].
    by destruct (JS.truthy label).
Qed.

(** X12: as long as every lookup answers before the next pick, the
    marker of the picker and the coordinates of the form agree: if they
    agree before a sequence of clicks, drags and search results (they
    do at mount, both starting at the same default), they agree after
    it. *)
Theorem picker_and_form_agree (events : list Event)
    (p : @State number) (s : @OrganizerPortal.State number) :
  position p = OrganizerPortal.coordinates s ->
  let st' := run toString OrganizerPortal.handleLocationSelect events (p, s) in
  position (fst st') = OrganizerPortal.coordinates (snd st').
Proof.
  intros H. cbn zeta. unfold run.
  assert (G : forall st : @State number * @OrganizerPortal.State number,
            position (fst st) = OrganizerPortal.coordinates (snd st) ->
            position (fst (fold_left (step toString OrganizerPortal.handleLocationSelect)
                             events st))
            = OrganizerPortal.coordinates
                (snd (fold_left (step toString OrganizerPortal.handleLocationSelect)
                        events st))).
  { induction events as [|ev events IH]; intros st Hst; [exact Hst|].
    cbn [fold_left]. apply IH. apply step_agree. }
  by apply G.
Qed.

(** X13: a lookup that answers late overrides a newer pick: after a
    click on [a] whose lookup is still running, a click on [b] (with
    its answer) and then the answer for [a], the marker stands on [b]
    while the form holds the coordinates of [a]. *)
Theorem late_answer_overrides_newer_pick (a b : @LatLng number)
    (answerA answerB : Lookup) (p : @State number)
    (s : @OrganizerPortal.State number) :
  let st1 := clickStarts a (p, s) in
  let st2 := mapClick toString OrganizerPortal.handleLocationSelect b answerB st1 in
  let st3 := lookupAnswers toString OrganizerPortal.handleLocationSelect a answerA st2 in
  position (fst st3) = b /\
  OrganizerPortal.coordinates (snd st3) = a /\
  OrganizerPortal.address (snd st3) <> EmptyString.
Proof.
  cbn zeta. unfold clickStarts, lookupAnswers, handleMapClick. cbn [fst snd].
  destruct (mapClick_delivers b answerB (setPosition a p) s) as (Hp & _).
  destruct (mapClick toString OrganizerPortal.handleLocationSelect b answerB
              (setPosition a p, s)) as [p2 s2] eqn:E2.
  cbn [fst snd] in Hp.
  destruct (fetchAddress_delivers (lat a) (lng a) answerA p2 s2) as (x & Hx & Es & Ep).
  rewrite Es, Ep, latlng_eta. cbn. repeat split; [exact Hp|].
  intros ->. discriminate.
Qed.

Lemma failed_picks_keep_address (picks : list (@LatLng number * Lookup))
    (st : @State number * @OrganizerPortal.State number) :
  Forall (fun pick => Spec.noDisplayAddress (snd pick)) picks ->
  address
    (fst (fold_left
            (fun st pick =>
               mapClick toString OrganizerPortal.handleLocationSelect
                 (fst pick) (snd pick) st)
            picks st))
  = address (fst st).
Proof.
  intros H. revert st. induction H as [|[latlng result] picks Hno _ IH]; intros st;
    [reflexivity|].
  cbn [fold_left fst snd]. rewrite IH. cbn [snd] in Hno.
  destruct Hno; reflexivity.
Qed.

(** X14: when every lookup fails or comes without a display address,
    the picker never learns an address: after any number of clicks
    from the state at mount, the line under "Selected Location:" still
    invites to search or click, although each click has handed a
    labelled point to the form. *)
Theorem failed_lookups_leave_overlay_empty (center : @LatLng number)
    (picks : list (@LatLng number * Lookup)) (s : @OrganizerPortal.State number) :
  Forall (fun pick => Spec.noDisplayAddress (snd pick)) picks ->
  overlayAddress
    (fst (fold_left
            (fun st pick =>
               mapClick toString OrganizerPortal.handleLocationSelect
                 (fst pick) (snd pick) st)
            picks (initialState center, s)))
  = "Search or click on map to select".
Proof.
  intros H. unfold overlayAddress.
  rewrite (failed_picks_keep_address picks (initialState center, s) H). reflexivity.
Qed.

End PickerFurther.

Lemma picker_and_form_agree_witness :
  let st' :=
    PickerSession.run pretty OrganizerPortal.handleLocationSelect
      [PickerSession.Click MoreSamples.uptown LocationPickerMap.fetchRejected;
       PickerSession.SearchResult (-74006000) 40712800 "City Hall"]
      (PickerSession.initialState Samples.center,
       OrganizerPortal.initialState (Some "org1") Samples.center) in
  LocationPickerMap.position (fst st') = OrganizerPortal.coordinates (snd st').
Proof.
  apply (picker_and_form_agree pretty
           [PickerSession.Click MoreSamples.uptown LocationPickerMap.fetchRejected;
            PickerSession.SearchResult (-74006000) 40712800 "City Hall"]
           (PickerSession.initialState Samples.center)
           (OrganizerPortal.initialState (Some "org1") Samples.center)).
  reflexivity.
Defined.

Lemma failed_lookups_leave_overlay_empty_witness :
  PickerSession.overlayAddress
    (fst (fold_left
            (fun st pick =>
               LocationPickerMap.mapClick pretty OrganizerPortal.handleLocationSelect
                 (fst pick) (snd pick) st)
            [(MoreSamples.uptown, LocationPickerMap.fetchRejected)]
            (PickerSession.initialState Samples.center,
             OrganizerPortal.ui Samples.portal)))
  = "Search or click on map to select".
Proof.
  apply (failed_lookups_leave_overlay_empty pretty Samples.center
           [(MoreSamples.uptown, LocationPickerMap.fetchRejected)]
           (OrganizerPortal.ui Samples.portal)).
  repeat constructor.
Defined.

(** ** AuthContext *)

Section AuthFacts.
Import AuthContext.

Lemma authStateChanged_overwrites (user : option string) (fetch : ProfileFetch)
    (s s' : State) :
  authStateChanged user fetch s = authStateChanged user fetch s'.
Proof. unfold authStateChanged. destruct user, fetch; reflexivity. Qed.

Lemma authStateChanged_sound (user : option string) (fetch : ProfileFetch) (s : State) :
  let s' := authStateChanged user fetch s in
  loading s' = false /\ currentUser s' = user /\
  (is_Some (userRole s') -> is_Some (currentUser s')).
Proof.
  cbn zeta. unfold authStateChanged. destruct user as [u|]; cbn.
  - repeat split. eauto.
  - repeat split. intros [r H]. discriminate.
Qed.

Lemma afterEvents_snoc (events : list (option string * ProfileFetch))
    (e : option string * ProfileFetch) (s : State) :
  afterEvents (events ++ [e]) s = authStateChanged (fst e) (snd e) (afterEvents events s).
Proof. unfold afterEvents. by rewrite fold_left_app. Qed.

Lemma afterEvents_last (events : list (option string * ProfileFetch)) :
  let s := afterEvents events initialState in
  (is_Some (userRole s) -> is_Some (currentUser s)) /\
  (childrenRendered s = true <-> events <> []) /\
  (forall earlier user fetch,
     events = earlier ++ [(user, fetch)] ->
     s = authStateChanged user fetch initialState /\
     currentUser s = user /\
     (user = None -> userRole s = None) /\
     (fetch = profileRejected -> userRole s = None)).
Proof.
  cbn zeta. induction events as [|[user fetch] earlier _] using rev_ind.
  - split; [|split].
    + intros [r H]. discriminate.
    + split; [discriminate | done].
    + intros earlier user fetch E. by destruct earlier.
  - rewrite afterEvents_snoc. cbn [fst snd].
    pose proof (authStateChanged_sound user fetch (afterEvents earlier initialState))
      as (Hl & Hu & Hr).
    split; [exact Hr|]. split.
    + unfold childrenRendered. rewrite Hl. split; [|done].
      intros _ E. by destruct earlier.
    + intros earlier' user' fetch' [_ [= <- <-]]%app_inj_tail.
      split; [apply authStateChanged_overwrites|]. split; [exact Hu|].
      split.
      * intros ->. reflexivity.
      * intros ->. unfold authStateChanged. by destruct user.
Qed.

(** A call of the callback followed at once by the end of its fetch is
    [authStateChanged]. *)
Lemma run_inTurn (calls : list (option string * ProfileFetch)) (s : State) :
  AuthEvents.run (AuthEvents.inTurn calls) s = afterEvents calls s.
Proof.
  revert s. unfold AuthEvents.run, AuthEvents.inTurn, afterEvents.
  induction calls as [|[user fetch] calls IH]; intros s; [reflexivity|].
  cbn [flat_map fst snd]. rewrite fold_left_app, IH. cbn [fold_left]. f_equal.
  destruct user as [u|]; reflexivity.
Qed.

(** X15: as long as the profile fetch of each call of the callback
    ends before the next call, the session the provider shows is that
    of the last call alone: nothing of an earlier call survives it.
    So from the state at mount, after any such calls, a role is only
    held together with a user, the user is the one of the last call
    (none after a sign-out, which also clears the role), and the
    children are rendered exactly when at least one call has been
    made. *)
Theorem session_is_last_auth_event (calls : list (option string * ProfileFetch)) :
  let s := AuthEvents.run (AuthEvents.inTurn calls) initialState in
  (is_Some (userRole s) -> is_Some (currentUser s)) /\
  (childrenRendered s = true <-> calls <> []) /\
  (forall earlier user fetch,
     calls = earlier ++ [(user, fetch)] ->
     s = authStateChanged user fetch initialState /\
     currentUser s = user /\
     (user = None -> userRole s = None) /\
     (fetch = profileRejected -> userRole s = None)).
Proof. cbn zeta. rewrite run_inTurn. apply afterEvents_last. Qed.

(** X18: a profile fetch that ends late brings back a user who has
    signed out: when the callback is called for [u], then called with
    no user, and then the fetch for [u] ends, the provider holds no
    user after the second call and holds [u] again, with the role
    fetched, at the end.  And from the state at mount, the children
    are not rendered while the fetch of the first call is running. *)
Theorem late_profile_overrides_sign_out (u : string) (fetch : ProfileFetch)
    (s : State) :
  let s2 := AuthEvents.run [AuthEvents.Called (Some u); AuthEvents.Called None] s in
  let s3 := AuthEvents.step s2 (AuthEvents.FetchEnds u fetch) in
  (currentUser s2 = None /\ userRole s2 = None /\ childrenRendered s2 = true) /\
  (currentUser s3 = Some u /\ childrenRendered s3 = true /\
   userRole s3 = match fetch with
                 | profileResolved profile => profile ≫= role
                 | profileRejected => None
                 end) /\
  childrenRendered (AuthEvents.run [AuthEvents.Called (Some u)] initialState) = false.
Proof. cbn zeta. destruct fetch; repeat split. Qed.

(** X16: [signup] asks for the profile update exactly when the account
    was created and a full name was given, and with that name; and it
    rejects exactly when the account could not be created or the
    profile update failed, in the latter case after the account has
    been created. *)
Theorem signup_updates_profile_when_named (email password fullName : string)
    (created : option string) (updated : bool) :
  let calls := fst (signup email password fullName created updated) in
  let result := snd (signup email password fullName created updated) in
  (forall u name,
     In (updateProfile u name) calls
     <-> created = Some u /\ name = fullName /\ fullName <> EmptyString) /\
  In (createUserWithEmailAndPassword email password) calls /\
  (result = None
   <-> created = None \/ (fullName <> EmptyString /\ updated = false)) /\
  (forall u, result = Some u -> created = Some u).
Proof.
  cbn zeta. unfold signup, JS.truthy.
  destruct created as [u|], (String.eqb_spec fullName EmptyString) as [E|E], updated;
    cbn [negb fst snd In]; naive_solver.
Qed.

End AuthFacts.
